(** * Catalyst Capture API: token lifecycle and submission admission

    A shallow embedding of [apps/api/src/index.js]: the site registry, the
    challenge and access token maps, the origin guard, the submission
    handler and the two storage backends (the in-process containers and
    the PostgreSQL pool), followed by the properties of the specification.

    Conventions of the embedding.
    - Request body fields that the API documents as strings are
      [option string]; [None] is a field absent from the body
      ([undefined]).  JavaScript truthiness of such a field is [truthy].
    - Millisecond timestamps and the two durations read from the process
      environment are integers ([Z]).
    - [Date.now()], [crypto.randomBytes], [Math.random] and the outcome of
      a round trip to the database are answers of the environment: the
      world carries one oracle per source and a counter of the calls made
      to it, so that every call reads a fresh answer.
    - [async] functions run without interleaving of other requests; a
      rejected promise is a thrown exception. *)

From Stdlib Require Import ZArith String List Bool Lia.
From stdpp Require Import base option strings list gmap pretty.

Local Open Scope Z_scope.

(** ** Data model *)

(** Values of [payload]: any JSON value. *)
#[local] Unset Elimination Schemes.
Inductive json : Type :=
| JNull
| JBool (b : bool)
| JNum (n : Z)
| JStr (s : string)
| JArr (items : list json)
| JObj (members : list (string * json)).
#[local] Set Elimination Schemes.

(** A record of the [sites] map and a row of the [sites] table. *)
Record Site : Type := mkSite {
  site_id : string;
  site_name : string;
  site_domains : list string;
  site_siteKey : string;
  site_secretKey : string
}.

(** A value of the [challengeTokens] map. *)
Record ChallengeRecord : Type := mkChallenge {
  chl_siteKey : string;
  chl_issuedAt : Z;
  chl_verified : bool
}.

(** A value of the [accessTokens] map. *)
Record AccessRecord : Type := mkAccess {
  acc_siteKey : string;
  acc_issuedAt : Z
}.

(** An element of [submissions] and a row of the [submissions] table. *)
Record Submission : Type := mkSubmission {
  sub_eventId : string;
  sub_siteKey : string;
  sub_payload : json;
  sub_fingerprint : option string;
  sub_ip : option string;
  sub_ua : option string;
  sub_origin : option string
}.

(** The tables created by [initDatabase]. *)
Record Db : Type := mkDb {
  db_sites : list Site;
  db_submissions : list Submission
}.

(** Values read once from the process environment when the module loads:
    [TOKEN_TTL_MS], [MIN_SUBMIT_DELAY_MS] and [ADMIN_API_KEY]. *)
Record Config : Type := mkConfig {
  tokenTtlMs : Z;
  minSubmitDelayMs : Z;
  adminApiKey : option string
}.

(** [Number(process.env.TOKEN_TTL_MS || 5 * 60 * 1000)] and
    [Number(process.env.MIN_SUBMIT_DELAY_MS || 0)] with neither variable set. *)
Definition default_config (admin : option string) : Config :=
  {| tokenTtlMs := 5 * 60 * 1000; minSubmitDelayMs := 0; adminApiKey := admin |}.

(** The answers of the environment, one oracle per source, indexed by the
    number of earlier calls to that source. *)
Record Env : Type := mkEnv {
  clock : nat -> Z;                (* Date.now() *)
  randomBytesHex : nat -> string;  (* crypto.randomBytes(16).toString("hex") *)
  mathRandom36 : nat -> string;    (* Math.random().toString(36).slice(2) *)
  dbFault : nat -> bool            (* the n-th pool.query is rejected *)
}.

(** The process: the module-level containers, the pool ([None] when the
    [DB_*] variables are not set), and the calls made so far. *)
Record World : Type := mkWorld {
  env : Env;
  ticks : nat;
  rb_calls : nat;
  mr_calls : nat;
  db_calls : nat;
  pool : option Db;
  sites : list (string * Site);
  submissions : list Submission;
  challengeTokens : gmap string ChallengeRecord;
  accessTokens : gmap string AccessRecord
}.

Definition set_ticks (n : nat) (w : World) : World :=
  mkWorld (env w) n (rb_calls w) (mr_calls w) (db_calls w) (pool w)
          (sites w) (submissions w) (challengeTokens w) (accessTokens w).

Definition set_rb_calls (n : nat) (w : World) : World :=
  mkWorld (env w) (ticks w) n (mr_calls w) (db_calls w) (pool w)
          (sites w) (submissions w) (challengeTokens w) (accessTokens w).

Definition set_mr_calls (n : nat) (w : World) : World :=
  mkWorld (env w) (ticks w) (rb_calls w) n (db_calls w) (pool w)
          (sites w) (submissions w) (challengeTokens w) (accessTokens w).

Definition set_db_calls (n : nat) (w : World) : World :=
  mkWorld (env w) (ticks w) (rb_calls w) (mr_calls w) n (pool w)
          (sites w) (submissions w) (challengeTokens w) (accessTokens w).

Definition set_pool (p : option Db) (w : World) : World :=
  mkWorld (env w) (ticks w) (rb_calls w) (mr_calls w) (db_calls w) p
          (sites w) (submissions w) (challengeTokens w) (accessTokens w).

Definition set_sites (s : list (string * Site)) (w : World) : World :=
  mkWorld (env w) (ticks w) (rb_calls w) (mr_calls w) (db_calls w) (pool w)
          s (submissions w) (challengeTokens w) (accessTokens w).

Definition set_submissions (s : list Submission) (w : World) : World :=
  mkWorld (env w) (ticks w) (rb_calls w) (mr_calls w) (db_calls w) (pool w)
          (sites w) s (challengeTokens w) (accessTokens w).

Definition set_challengeTokens (m : gmap string ChallengeRecord) (w : World) : World :=
  mkWorld (env w) (ticks w) (rb_calls w) (mr_calls w) (db_calls w) (pool w)
          (sites w) (submissions w) m (accessTokens w).

Definition set_accessTokens (m : gmap string AccessRecord) (w : World) : World :=
  mkWorld (env w) (ticks w) (rb_calls w) (mr_calls w) (db_calls w) (pool w)
          (sites w) (submissions w) (challengeTokens w) m.

(** ** The handler monad: world passing with exceptions *)

Inductive Exn : Type :=
| DbError.

Inductive Outcome (A : Type) : Type :=
| Return (a : A)
| Throw (e : Exn).
Arguments Return {A} a.
Arguments Throw {A} e.

Definition M (A : Type) : Type := World -> Outcome A * World.

#[global] Instance M_ret : MRet M := fun A a w => (Return a, w).

#[global] Instance M_bind : MBind M := fun A B f m w =>
  match m w with
  | (Return a, w') => f a w'
  | (Throw e, w') => (Throw e, w')
  end.

(** [try { body } catch (err) { handler }]: the effects of [body] up to
    the exception stay. *)
Definition try_catch {A} (body : M A) (handler : Exn -> M A) : M A := fun w =>
  match body w with
  | (Return a, w') => (Return a, w')
  | (Throw e, w') => handler e w'
  end.

Definition get_world : M World := fun w => (Return w, w).
Definition modify (f : World -> World) : M unit := fun w => (Return tt, f w).

(** [Date.now()] *)
Definition date_now : M Z := fun w =>
  (Return (clock (env w) (ticks w)), set_ticks (S (ticks w)) w).

(** [crypto.randomBytes(16).toString("hex")] *)
Definition crypto_randomBytes_hex : M string := fun w =>
  (Return (randomBytesHex (env w) (rb_calls w)), set_rb_calls (S (rb_calls w)) w).

(** [Math.random().toString(36).slice(2)] *)
Definition math_random_base36 : M string := fun w =>
  (Return (mathRandom36 (env w) (mr_calls w)), set_mr_calls (S (mr_calls w)) w).

(** ** JavaScript helpers *)

(** Truthiness of a string-valued body field: [undefined] and the empty
    string are falsy. *)
Definition truthy (f : option string) : bool :=
  match f with
  | Some s => negb (bool_decide (s = EmptyString))
  | None => false
  end.

(** The string held by a field already known to be truthy. *)
Definition str (f : option string) : string := default EmptyString f.

(** [a || null] on a string-valued field. *)
Definition or_null (f : option string) : option string :=
  if truthy f then f else None.

(** [s.endsWith(x)] *)
Definition endsWith (s x : string) : bool :=
  (String.length x <=? String.length s)%nat
  && bool_decide (substring (String.length s - String.length x) (String.length x) s = x).

(** Template-literal rendering of an integer, as in [`evt_${Date.now()}`]. *)
Definition render (n : Z) : string := pretty n.

(** [Map.prototype.set] on a map whose iteration order matters: a key
    already present keeps its position, a new key goes last. *)
Fixpoint map_set {V : Type} (k : string) (v : V) (m : list (string * V)) : list (string * V) :=
  match m with
  | [] => [(k, v)]
  | (k', v') :: m' =>
      if bool_decide (k' = k) then (k, v) :: m' else (k', v') :: map_set k v m'
  end.

(** [Map.prototype.values], in insertion order. *)
Definition map_values {V : Type} (m : list (string * V)) : list V := map snd m.

(** [challengeTokens.set(token, record)] *)
Definition challengeTokens_set (token : string) (record : ChallengeRecord) (w : World) : World :=
  set_challengeTokens (<[token := record]> (challengeTokens w)) w.

(** [accessTokens.set(accessToken, record)] *)
Definition accessTokens_set (accessToken : string) (record : AccessRecord) (w : World) : World :=
  set_accessTokens (<[accessToken := record]> (accessTokens w)) w.

(** [record.verified = true], where [record] is the object that
    [challengeTokens] holds under [token]: the assignment is seen through
    the map. *)
Definition mark_verified (token : string) (record : ChallengeRecord) (w : World) : World :=
  challengeTokens_set token (mkChallenge (chl_siteKey record) (chl_issuedAt record) true) w.

(** ** Storage: the in-process containers and the pool *)

(** [INSERT INTO sites]: [id] is the primary key and [site_key] is
    [UNIQUE]; a violated constraint rejects the query. *)
Definition insert_site (record : Site) (db : Db) : option (unit * Db) :=
  if existsb (fun row => bool_decide (site_id row = site_id record)
                         || bool_decide (site_siteKey row = site_siteKey record))
             (db_sites db)
  then None
  else Some (tt, mkDb (db_sites db ++ [record]) (db_submissions db)).

(** [SELECT ... FROM sites WHERE site_key = $1 LIMIT 1], then
    [result.rows[0] || null]. *)
Definition select_site (siteKey : string) (db : Db) : option (option Site * Db) :=
  Some (find (fun row => bool_decide (site_siteKey row = siteKey)) (db_sites db), db).

(** [INSERT INTO submissions]: [event_id] is the primary key. *)
Definition insert_submission (entry : Submission) (db : Db) : option (unit * Db) :=
  if existsb (fun row => bool_decide (sub_eventId row = sub_eventId entry))
             (db_submissions db)
  then None
  else Some (tt, mkDb (db_sites db) (db_submissions db ++ [entry])).

(** [await pool.query(...)]: the round trip is counted; the environment
    may reject it (connection lost, value refused by the driver), and so
    may a constraint of the schema. *)
Definition pool_query {A : Type} (db : Db) (q : Db -> option (A * Db)) : M A := fun w =>
  let w1 := set_db_calls (S (db_calls w)) w in
  if dbFault (env w) (db_calls w) then (Throw DbError, w1)
  else match q db with
       | None => (Throw DbError, w1)
       | Some (a, db') => (Return a, set_pool (Some db') w1)
       end.

Definition storeSite (record : Site) : M unit := fun w =>
  match pool w with
  | None => (Return tt, set_sites (map_set (site_id record) record (sites w)) w)
  | Some db => pool_query db (insert_site record) w
  end.

Definition findSiteBySiteKey (siteKey : string) : M (option Site) := fun w =>
  if bool_decide (siteKey = EmptyString) then (Return None, w)
  else match pool w with
       | None =>
           (Return (find (fun site => bool_decide (site_siteKey site = siteKey))
                         (map_values (sites w))), w)
       | Some db => pool_query db (select_site siteKey) w
       end.

(** The row written by [storeSubmission]: [entry.x || null] for the
    optional columns. *)
Definition submission_row (entry : Submission) : Submission :=
  mkSubmission (sub_eventId entry) (sub_siteKey entry) (sub_payload entry)
               (or_null (sub_fingerprint entry)) (or_null (sub_ip entry))
               (or_null (sub_ua entry)) (or_null (sub_origin entry)).

Definition storeSubmission (entry : Submission) : M unit := fun w =>
  match pool w with
  | None => (Return tt, set_submissions (submissions w ++ [entry]) w)
  | Some db => pool_query db (insert_submission (submission_row entry)) w
  end.

(** ** Responses *)

Inductive ErrorKind : Type :=
| unauthorized
| missing_site_key
| missing_fields
| missing_name
| origin_not_allowed
| invalid_token
| token_expired
| invalid_access_token
| access_token_expired
| submit_too_fast
| honeypot_triggered
| verification_failed
| storage_failed.

Inductive Response : Type :=
| RespError (status : Z) (error : ErrorKind)      (* { ok: false, error } *)
| RespChallenge (challengeId token : string)      (* { ok: true, challengeId, token, challenge } *)
| RespVerify (accessToken : string)               (* { ok: true, score: 0.99, reason, accessToken } *)
| RespSubmit (eventId : string)                   (* { ok: true, eventId } *)
| RespSite (site : Site).                         (* { ok: true, site: record } *)

(** ** Requests *)

(** [POST /v1/challenge]: the body. *)
Record ChallengeRequest : Type := mkChallengeRequest {
  cr_siteKey : option string
}.

(** [POST /v1/verify]: the body and the [Origin] header. *)
Record VerifyRequest : Type := mkVerifyRequest {
  vr_siteKey : option string;
  vr_token : option string;
  vr_origin : option string
}.

(** [POST /v1/submit]: the body, [req.ip] and the [User-Agent] and
    [Origin] headers. *)
Record SubmitRequest : Type := mkSubmitRequest {
  sr_siteKey : option string;
  sr_token : option string;
  sr_accessToken : option string;
  sr_payload : option json;
  sr_honeypot : option string;
  sr_fingerprint : option string;
  sr_ip : option string;
  sr_ua : option string;
  sr_origin : option string
}.

(** [POST /v1/admin/sites]: the [x-admin-api-key] header and the body. *)
Record AdminSiteRequest : Type := mkAdminSiteRequest {
  ar_adminKey : option string;
  ar_name : option string;
  ar_domains : option (list string)
}.

(** ** The handlers *)

Section Handlers.

(** [new URL(origin).hostname]; [None] when the constructor throws. *)
Variable url_hostname : string -> option string.

Variable cfg : Config.

Definition getOriginHost (origin : option string) : option string :=
  if negb (truthy origin) then None else url_hostname (str origin).

Definition isOriginAllowed (site : option Site) (origin : option string) : bool :=
  match site with
  | None => true
  | Some site =>
      if bool_decide (site_domains site = []) then true
      else
        let host := getOriginHost origin in
        if negb (truthy host) then true
        else existsb (fun domain =>
                        bool_decide (str host = domain)
                        || endsWith (str host) ("." +:+ domain))
                     (site_domains site)
  end.

Definition generateToken (prefix : string) : M string :=
  hex ← crypto_randomBytes_hex;
  mret (prefix +:+ "_" +:+ hex).

Definition isTokenExpired (issuedAt : Z) : M bool :=
  now ← date_now;
  mret (now - issuedAt >? tokenTtlMs cfg).

Definition post_challenge (req : ChallengeRequest) : M Response :=
  if negb (truthy (cr_siteKey req)) then mret (RespError 400 missing_site_key)
  else
    let siteKey := str (cr_siteKey req) in
    stamp ← date_now;
    let challengeId := "chl_" +:+ render stamp in
    token ← generateToken "tok";
    issuedAt ← date_now;
    modify (challengeTokens_set token (mkChallenge siteKey issuedAt false));;
    mret (RespChallenge challengeId token).

Definition post_verify (req : VerifyRequest) : M Response :=
  if negb (truthy (vr_siteKey req)) || negb (truthy (vr_token req))
  then mret (RespError 400 missing_fields)
  else
    let siteKey := str (vr_siteKey req) in
    let token := str (vr_token req) in
    let origin := vr_origin req in
    try_catch
      (site ← findSiteBySiteKey siteKey;
       if bool_decide (is_Some site) && negb (isOriginAllowed site origin)
       then mret (RespError 403 origin_not_allowed)
       else
         w ← get_world;
         match challengeTokens w !! token with
         | None => mret (RespError 401 invalid_token)
         | Some record =>
             if negb (bool_decide (chl_siteKey record = siteKey))
             then mret (RespError 401 invalid_token)
             else
               expired ← isTokenExpired (chl_issuedAt record);
               if (expired : bool) then mret (RespError 401 token_expired)
               else
                 modify (mark_verified token record);;
                 accessToken ← generateToken "acc";
                 issuedAt ← date_now;
                 modify (accessTokens_set accessToken (mkAccess siteKey issuedAt));;
                 mret (RespVerify accessToken)
         end)
      (fun _ => mret (RespError 500 verification_failed)).

(** The token part of the submit handler: [None] lets the request
    through to the store, [Some r] is the early response. *)
Definition redeem (siteKey : string) (req : SubmitRequest) : M (option Response) :=
  if truthy (sr_accessToken req) then
    w ← get_world;
    match accessTokens w !! str (sr_accessToken req) with
    | None => mret (Some (RespError 401 invalid_access_token))
    | Some accessRecord =>
        if negb (bool_decide (acc_siteKey accessRecord = siteKey))
        then mret (Some (RespError 401 invalid_access_token))
        else
          expired ← isTokenExpired (acc_issuedAt accessRecord);
          if (expired : bool) then mret (Some (RespError 401 access_token_expired))
          else mret None
    end
  else
    let token := str (sr_token req) in
    w ← get_world;
    match challengeTokens w !! token with
    | None => mret (Some (RespError 401 invalid_token))
    | Some record =>
        if negb (bool_decide (chl_siteKey record = siteKey))
        then mret (Some (RespError 401 invalid_token))
        else
          expired ← isTokenExpired (chl_issuedAt record);
          if (expired : bool) then mret (Some (RespError 401 token_expired))
          else
            now ← date_now;
            if now - chl_issuedAt record <? minSubmitDelayMs cfg
            then mret (Some (RespError 429 submit_too_fast))
            else
              modify (mark_verified token record);;
              mret None
    end.

Definition post_submit (req : SubmitRequest) : M Response :=
  match sr_payload req with
  | None => mret (RespError 400 missing_fields)
  | Some payload =>
      if negb (truthy (sr_siteKey req))
         || (negb (truthy (sr_token req)) && negb (truthy (sr_accessToken req)))
      then mret (RespError 400 missing_fields)
      else if truthy (sr_honeypot req)
      then mret (RespError 400 honeypot_triggered)
      else
        let siteKey := str (sr_siteKey req) in
        let origin := sr_origin req in
        try_catch
          (site ← findSiteBySiteKey siteKey;
           if bool_decide (is_Some site) && negb (isOriginAllowed site origin)
           then mret (RespError 403 origin_not_allowed)
           else
             early ← redeem siteKey req;
             match early with
             | Some response => mret response
             | None =>
                 stamp ← date_now;
                 let eventId := "evt_" +:+ render stamp in
                 let entry := mkSubmission eventId siteKey payload
                                           (sr_fingerprint req) (sr_ip req)
                                           (sr_ua req) origin in
                 storeSubmission entry;;
                 mret (RespSubmit eventId)
             end)
          (fun _ => mret (RespError 500 storage_failed))
  end.

Definition requireAdminKey (headerKey : option string) : bool :=
  negb (negb (truthy (adminApiKey cfg))
        || negb (bool_decide (headerKey = adminApiKey cfg))).

Definition post_admin_sites (req : AdminSiteRequest) : M Response :=
  if negb (requireAdminKey (ar_adminKey req))
  then mret (RespError 401 unauthorized)
  else if negb (truthy (ar_name req)) then mret (RespError 400 missing_name)
  else
    let name := str (ar_name req) in
    let domains := default [] (ar_domains req) in
    stamp ← date_now;
    let id := "site_" +:+ render stamp in
    r1 ← math_random_base36;
    let siteKey := "pk_" +:+ r1 in
    r2 ← math_random_base36;
    let secretKey := "sk_" +:+ r2 in
    let record := mkSite id name domains siteKey secretKey in
    try_catch
      (storeSite record;; mret (RespSite record))
      (fun _ => mret (RespError 500 storage_failed)).

End Handlers.

(** ** Server-side verification *)

(** [POST /v1/verify-server]: the body and the [x-site-secret] header. *)
Record VerifyServerRequest : Type := mkVerifyServerRequest {
  vs_siteKey : option string;
  vs_token : option string;
  vs_secretKey : option string;
  vs_headerSecret : option string
}.

Inductive ServerError : Type :=
| server_missing_fields          (* "missing_fields" *)
| server_invalid_secret          (* "invalid_secret" *)
| server_verification_failed.    (* "verification_failed" *)

Inductive ServerResponse : Type :=
| ServerRespError (status : Z) (error : ServerError)  (* { ok: false, error } *)
| ServerRespOk.                  (* { ok: true, score: 1.0, reason: "server_secret" } *)

(** [a || b] on string-valued fields. *)
Definition or_else (a b : option string) : option string :=
  if truthy a then a else b.

Definition post_verify_server (req : VerifyServerRequest) : M ServerResponse :=
  let providedSecret := or_else (vs_secretKey req) (vs_headerSecret req) in
  if negb (truthy (vs_siteKey req)) || negb (truthy (vs_token req))
     || negb (truthy providedSecret)
  then mret (ServerRespError 400 server_missing_fields)
  else
    try_catch
      (site ← findSiteBySiteKey (str (vs_siteKey req));
       match site with
       | None => mret (ServerRespError 401 server_invalid_secret)
       | Some site =>
           if negb (bool_decide (site_secretKey site = str providedSecret))
           then mret (ServerRespError 401 server_invalid_secret)
           else mret ServerRespOk
       end)
      (fun _ => mret (ServerRespError 500 server_verification_failed)).

(** ** The routes *)

(** A request to one of the routes that touch the state of the process. *)
Inductive Request : Type :=
| ToChallenge (req : ChallengeRequest)
| ToVerify (req : VerifyRequest)
| ToVerifyServer (req : VerifyServerRequest)
| ToSubmit (req : SubmitRequest)
| ToAdminSites (req : AdminSiteRequest).

(** The world once the request has been answered. *)
Definition serve (url_hostname : string -> option string) (cfg : Config)
           (request : Request) (w : World) : World :=
  match request with
  | ToChallenge req => snd (post_challenge req w)
  | ToVerify req => snd (post_verify url_hostname cfg req w)
  | ToVerifyServer req => snd (post_verify_server req w)
  | ToSubmit req => snd (post_submit url_hostname cfg req w)
  | ToAdminSites req => snd (post_admin_sites cfg req w)
  end.

(** The world once the requests have been answered, one after the other. *)
Definition serve_all (url_hostname : string -> option string) (cfg : Config)
           (requests : list Request) (w : World) : World :=
  fold_left (fun w request => serve url_hostname cfg request w) requests w.

(** ** Observations on a world *)

(** The site that the active backend holds under a site key. *)
Definition site_of (siteKey : string) (w : World) : option Site :=
  match pool w with
  | None => find (fun site => bool_decide (site_siteKey site = siteKey))
                 (map_values (sites w))
  | Some db => find (fun row => bool_decide (site_siteKey row = siteKey)) (db_sites db)
  end.

(** The sites that the active backend holds, in the order of the search. *)
Definition stored_sites (w : World) : list Site :=
  match pool w with
  | None => map_values (sites w)
  | Some db => db_sites db
  end.

(** The environment rejects the next query (never without a pool). *)
Definition next_query_fails (w : World) : bool :=
  match pool w with
  | None => false
  | Some _ => dbFault (env w) (db_calls w)
  end.

(** The world once the next query has been sent. *)
Definition after_query (w : World) : World :=
  match pool w with
  | None => w
  | Some _ => set_db_calls (S (db_calls w)) w
  end.

(** The submissions that the active backend holds. *)
Definition stored_submissions (w : World) : list Submission :=
  match pool w with
  | None => submissions w
  | Some db => db_submissions db
  end.

(** The active backend takes a row with this event id: the in-process
    list always does; the pool does when the environment lets the query
    through and no row has the same primary key. *)
Definition storage_accepts (eventId : string) (w : World) : bool :=
  match pool w with
  | None => true
  | Some db =>
      negb (dbFault (env w) (db_calls w))
      && negb (existsb (fun row => bool_decide (sub_eventId row = eventId))
                       (db_submissions db))
  end.

(** The world once the active backend has taken the entry. *)
Definition stored (entry : Submission) (w : World) : World :=
  match pool w with
  | None => set_submissions (submissions w ++ [entry]) w
  | Some db =>
      set_pool (Some (mkDb (db_sites db) (db_submissions db ++ [submission_row entry])))
               (after_query w)
  end.

(** The element that the active backend keeps for an entry: the object
    itself in the in-process list, the inserted row in the table. *)
Definition persisted (entry : Submission) (w : World) : Submission :=
  match pool w with
  | None => entry
  | Some _ => submission_row entry
  end.

(** The error kinds with which [/v1/submit] turns a request away before
    it reaches the store. *)
Definition rejected_before_store (error : ErrorKind) : bool :=
  match error with
  | missing_fields | honeypot_triggered | origin_not_allowed
  | invalid_token | token_expired | submit_too_fast
  | invalid_access_token | access_token_expired => true
  | _ => false
  end.

(** The next reading of the clock. *)
Definition now_of (w : World) : Z := clock (env w) (ticks w).

(** ** The handlers, phase by phase

    Closed forms of what a handler does from a given point on; the
    lemmas of the section on running the handlers prove that the handlers
    compute them. *)

Section Phases.

Variable cfg : Config.

(** The world after a challenge issued in [w]. *)
Definition issued_world (siteKey : string) (w : World) : World :=
  challengeTokens_set ("tok_" +:+ randomBytesHex (env w) (rb_calls w))
                      (mkChallenge siteKey (clock (env w) (S (ticks w))) false)
                      (set_ticks (S (S (ticks w)))
                         (set_rb_calls (S (rb_calls w)) (set_ticks (S (ticks w)) w))).

(** The world after a successful verification started in [w]. *)
Definition verified_world (siteKey token : string) (record : ChallengeRecord)
           (w : World) : World :=
  let w1 := set_ticks (S (ticks w)) (after_query w) in
  let w2 := set_rb_calls (S (rb_calls w)) (mark_verified token record w1) in
  accessTokens_set ("acc_" +:+ randomBytesHex (env w) (rb_calls w))
                   (mkAccess siteKey (clock (env w) (S (ticks w))))
                   (set_ticks (S (S (ticks w))) w2).

(** The tail of the submit handler, from [const eventId] on, started
    in [w]. *)
Definition store_phase (req : SubmitRequest) (siteKey : string) (payload : json)
           (w : World) : Outcome Response * World :=
  let eventId := "evt_" +:+ render (now_of w) in
  let entry := mkSubmission eventId siteKey payload (sr_fingerprint req)
                            (sr_ip req) (sr_ua req) (sr_origin req) in
  let w1 := set_ticks (S (ticks w)) w in
  if storage_accepts eventId w1 then (Return (RespSubmit eventId), stored entry w1)
  else (Return (RespError 500 storage_failed), after_query w1).

(** The submit handler past the field and honeypot checks, the site
    lookup and the origin check, started in [w] with the lookup already
    counted in [w1]. *)
Definition redeem_phase (req : SubmitRequest) (siteKey : string) (payload : json)
           (w : World) : Outcome Response * World :=
  let w1 := after_query w in
  if truthy (sr_accessToken req) then
    match accessTokens w !! str (sr_accessToken req) with
    | None => (Return (RespError 401 invalid_access_token), w1)
    | Some accessRecord =>
        if negb (bool_decide (acc_siteKey accessRecord = siteKey))
        then (Return (RespError 401 invalid_access_token), w1)
        else if now_of w - acc_issuedAt accessRecord >? tokenTtlMs cfg
        then (Return (RespError 401 access_token_expired), set_ticks (S (ticks w)) w1)
        else store_phase req siteKey payload (set_ticks (S (ticks w)) w1)
    end
  else
    match challengeTokens w !! str (sr_token req) with
    | None => (Return (RespError 401 invalid_token), w1)
    | Some record =>
        if negb (bool_decide (chl_siteKey record = siteKey))
        then (Return (RespError 401 invalid_token), w1)
        else if now_of w - chl_issuedAt record >? tokenTtlMs cfg
        then (Return (RespError 401 token_expired), set_ticks (S (ticks w)) w1)
        else if clock (env w) (S (ticks w)) - chl_issuedAt record <? minSubmitDelayMs cfg
        then (Return (RespError 429 submit_too_fast), set_ticks (S (S (ticks w))) w1)
        else store_phase req siteKey payload
               (mark_verified (str (sr_token req)) record
                              (set_ticks (S (S (ticks w))) w1))
    end.

(** The record that the admin handler builds in [w]. *)
Definition new_site (req : AdminSiteRequest) (w : World) : Site :=
  mkSite ("site_" +:+ render (now_of w)) (str (ar_name req))
         (default [] (ar_domains req))
         ("pk_" +:+ mathRandom36 (env w) (mr_calls w))
         ("sk_" +:+ mathRandom36 (env w) (S (mr_calls w))).

(** The world in which the admin handler calls [storeSite]. *)
Definition keys_drawn (w : World) : World :=
  set_mr_calls (S (S (mr_calls w))) (set_mr_calls (S (mr_calls w)) (set_ticks (S (ticks w)) w)).

End Phases.

(** The origin check of the submit handler lets the request through in [w]. *)
Definition origin_passes (url_hostname : string -> option string)
           (req : SubmitRequest) (siteKey : string) (w : World) : Prop :=
  bool_decide (is_Some (site_of siteKey w))
  && negb (isOriginAllowed url_hostname (site_of siteKey w) (sr_origin req)) = false.

(** ** Invariants *)

(** The keys of the pool's tables are kept apart: no two rows of [sites]
    share an [id] or a [site_key], no two rows of [submissions] share an
    [event_id]. *)
Definition tables_keyed (w : World) : Prop :=
  match pool w with
  | None => True
  | Some db =>
      NoDup (map site_id (db_sites db))
      /\ NoDup (map site_siteKey (db_sites db))
      /\ NoDup (map sub_eventId (db_submissions db))
  end.

(** Every key of [challengeTokens] starts with [tok_] and every key of
    [accessTokens] with [acc_]. *)
Definition tokens_prefixed (w : World) : Prop :=
  (forall token, is_Some (challengeTokens w !! token) ->
                 exists hex, token = "tok_" +:+ hex)
  /\ (forall accessToken, is_Some (accessTokens w !! accessToken) ->
                          exists hex, accessToken = "acc_" +:+ hex).

(** The elementary changes that a handler makes to the world. *)
Inductive effect : World -> World -> Prop :=
| effect_query w :
    effect w (after_query w)
| effect_tick w n :
    effect w (set_ticks n w)
| effect_random_bytes w n :
    effect w (set_rb_calls n w)
| effect_math_random w n :
    effect w (set_mr_calls n w)
| effect_issue w hex record :
    effect w (challengeTokens_set ("tok_" +:+ hex) record w)
| effect_mark w token record :
    challengeTokens w !! token = Some record ->
    effect w (mark_verified token record w)
| effect_grant w hex record :
    effect w (accessTokens_set ("acc_" +:+ hex) record w)
| effect_store_submission w entry :
    storage_accepts (sub_eventId entry) w = true ->
    effect w (stored entry w)
| effect_store_site w record w' :
    storeSite record w = (Return tt, w') ->
    effect w w'.

(** ** Example worlds *)

(** A clock that advances by one millisecond at every reading. *)
Definition ticking_clock (n : nat) : Z := 1700000000000 + Z.of_nat n.

(** A clock that stays within one millisecond. *)
Definition frozen_clock (n : nat) : Z := 1700000000000.

(** Distinct answers at every draw, and a database that never fails. *)
Definition demo_env (c : nat -> Z) : Env :=
  mkEnv c (fun n => "h" +:+ pretty n) (fun n => "r" +:+ pretty n) (fun _ => false).


(** The database rejects every query from the second on. *)
Definition failing_env : Env :=
  mkEnv ticking_clock (fun n => "h" +:+ pretty n) (fun n => "r" +:+ pretty n)
        (fun n => negb (Nat.eqb n 0)).

(** The process just started. *)
Definition fresh_world (e : Env) (p : option Db) : World :=
  mkWorld e 0 0 0 0 p [] [] ∅ ∅.

Definition demo_config : Config := default_config (Some "admin-key"%string).

(** A stand-in for the URL constructor on origins of the form
    [https://host]; anything else makes it throw. *)
Definition demo_url_hostname (origin : string) : option string :=
  if String.prefix "https://" origin
  then Some (substring 8 (String.length origin - 8) origin)
  else None.

Definition demo_site : Site :=
  mkSite "site_1" "demo" ["domain.com"%string] "pk_abc" "sk_abc".

Definition demo_challenge_request : ChallengeRequest :=
  mkChallengeRequest (Some "pk_abc"%string).

Definition demo_verify_request : VerifyRequest :=
  mkVerifyRequest (Some "pk_abc"%string) (Some "tok_h0"%string) None.

(** A submission with the raw token. *)
Definition demo_submit_request (honeypot : option string) : SubmitRequest :=
  mkSubmitRequest (Some "pk_abc"%string) (Some "tok_h0"%string) None
                  (Some (JObj [("a"%string, JNum 1)])) honeypot None
                  (Some "203.0.113.7"%string) None None.

(** A submission with an access token. *)
Definition demo_access_request : SubmitRequest :=
  mkSubmitRequest (Some "pk_abc"%string) None (Some "acc_h1"%string)
                  (Some (JObj [("a"%string, JNum 1)])) None None
                  (Some "203.0.113.7"%string) None None.

Definition demo_admin_request (domains : list string) : AdminSiteRequest :=
  mkAdminSiteRequest (Some "admin-key"%string) (Some "demo"%string) (Some domains).

(** The world after one challenge for ["pk_abc"]. *)
Definition challenged_world (e : Env) (p : option Db) : World :=
  snd (post_challenge demo_challenge_request (fresh_world e p)).

(** A world holding a challenge token issued exactly [ttl] milliseconds
    before the next clock reading, and an access token of the same age. *)
Definition boundary_world (ttl : Z) : World :=
  mkWorld (demo_env ticking_clock) 0 0 0 0 None [] []
          {[ "tok_h0"%string := mkChallenge "pk_abc" (1700000000000 - ttl) false ]}
          {[ "acc_h1"%string := mkAccess "pk_abc" (1700000000000 - ttl) ]}.

Definition challenged_demo_world : World :=
  challenged_world (demo_env ticking_clock) None.

(** The same, on a pool whose second query is rejected. *)
Definition challenged_failing_world : World :=
  challenged_world failing_env (Some (mkDb [] [])).

(** The same, in memory, with the clock staying within one millisecond. *)
Definition challenged_frozen_world : World :=
  challenged_world (demo_env frozen_clock) None.

(** The world after one successful verification of that challenge. *)
Definition verified_once_world : World :=
  snd (post_verify demo_url_hostname demo_config demo_verify_request
                   (challenged_world (demo_env ticking_clock) None)).

(** Three milliseconds must pass between issuance and submission. *)
Definition slow_config : Config := mkConfig (5 * 60 * 1000) 3 (Some "admin-key"%string).


(** A token lives two milliseconds. *)
Definition short_config : Config := mkConfig 2 0 (Some "admin-key"%string).

(** The database rejects every query. *)
Definition down_env : Env :=
  mkEnv ticking_clock (fun n => "h" +:+ pretty n) (fun n => "r" +:+ pretty n)
        (fun _ => true).

(** A process that holds [demo_site] in its map and nothing else. *)
Definition registered_world : World :=
  mkWorld (demo_env ticking_clock) 0 0 0 0 None [("site_1"%string, demo_site)] [] ∅ ∅.

Definition demo_server_request (secretKey header : option string) : VerifyServerRequest :=
  mkVerifyServerRequest (Some "pk_abc"%string) (Some "anything"%string) secretKey header.

(** A submission with any access token and any origin. *)
Definition demo_access_request_with (token accessToken origin : option string)
  : SubmitRequest :=
  mkSubmitRequest (Some "pk_abc"%string) token accessToken
                  (Some (JObj [("a"%string, JNum 1)])) None None
                  (Some "203.0.113.7"%string) None origin.

(** The pool after one site has been created with the clock frozen. *)
Definition pool_with_one_site : World :=
  snd (post_admin_sites demo_config (demo_admin_request ["first.example"%string])
                        (fresh_world (demo_env frozen_clock) (Some (mkDb [] [])))).

(** * Properties *)

(** ** Strings *)

Lemma append_cons (c : Ascii.ascii) (s t : string) :
  String c s +:+ t = String c (s +:+ t).
Proof. reflexivity. Qed.

Lemma length_append (s t : string) :
  String.length (s +:+ t) = (String.length s + String.length t)%nat.
Proof. induction s as [|c s IH]; simpl; [reflexivity | now rewrite IH]. Qed.

Lemma substring_whole (s : string) : substring 0 (String.length s) s = s.
Proof. induction s as [|c s IH]; simpl; [reflexivity | now rewrite IH]. Qed.

Lemma substring_after_prefix (p x : string) :
  substring (String.length p) (String.length x) (p +:+ x) = x.
Proof. induction p as [|c p IH]; simpl; [apply substring_whole | exact IH]. Qed.

Lemma substring_split (s : string) (n : nat) :
  (n <= String.length s)%nat ->
  s = substring 0 n s +:+ substring n (String.length s - n) s.
Proof.
  revert n. induction s as [|c s IH]; intros n Hn.
  - destruct n; reflexivity.
  - destruct n as [|n]; simpl in *.
    + now rewrite substring_whole.
    + rewrite append_cons. f_equal. apply IH. lia.
Qed.

(** [endsWith] holds exactly of the strings that are some prefix followed
    by the suffix. *)
Lemma endsWith_spec (s x : string) :
  endsWith s x = true <-> exists p, s = p +:+ x.
Proof.
  unfold endsWith. rewrite andb_true_iff, Nat.leb_le, bool_decide_eq_true. split.
  - intros [Hlen Hsub].
    exists (substring 0 (String.length s - String.length x) s).
    pose proof (substring_split s (String.length s - String.length x)) as Hs.
    replace (String.length s - (String.length s - String.length x))%nat
      with (String.length x) in Hs by lia.
    rewrite Hsub in Hs. apply Hs. lia.
  - intros [p ->]. rewrite length_append. split; [lia |].
    replace (String.length p + String.length x - String.length x)%nat
      with (String.length p) by lia.
    apply substring_after_prefix.
Qed.

Lemma append_cancel_r (p q x : string) : p +:+ x = q +:+ x -> p = q.
Proof.
  revert q. induction p as [|c p IH]; intros [|d q] H.
  - reflexivity.
  - apply (f_equal String.length) in H. rewrite !length_append in H. simpl in H. lia.
  - apply (f_equal String.length) in H. rewrite !length_append in H. simpl in H. lia.
  - rewrite !append_cons in H. injection H as -> H. f_equal. now apply IH.
Qed.

Lemma append_assoc (a b c : string) : (a +:+ b) +:+ c = a +:+ (b +:+ c).
Proof.
  induction a as [|x a IH]; [reflexivity |]. rewrite !append_cons. now rewrite IH.
Qed.

Lemma str_Some (s : string) : str (Some s) = s.
Proof. reflexivity. Qed.

Lemma truthy_Some (f : option string) :
  truthy f = true <-> exists s, f = Some s /\ s <> EmptyString.
Proof.
  destruct f as [s|]; simpl.
  - rewrite negb_true_iff, bool_decide_eq_false. split.
    + intros H. exists s. auto.
    + intros (s' & [= <-] & H). exact H.
  - split; [discriminate | intros (s & H & _); discriminate].
Qed.

Lemma truthy_false (f : option string) :
  truthy f = false <-> f = None \/ f = Some EmptyString.
Proof.
  destruct f as [s|]; simpl.
  - rewrite negb_false_iff, bool_decide_eq_true. split.
    + intros ->. now right.
    + intros [H | [= ->]]; [discriminate | reflexivity].
  - split; auto.
Qed.

(** ** The origin guard *)

Lemma append_nonempty (p x : string) : p <> EmptyString -> p +:+ x <> EmptyString.
Proof. destruct p; [congruence | discriminate]. Qed.

Lemma append_not_suffix_itself (p x : string) : p <> EmptyString -> p +:+ x <> x.
Proof.
  intros Hp H. apply (f_equal String.length) in H. rewrite length_append in H.
  destruct p; [congruence | simpl in H; lia].
Qed.

(** The test applied to each configured domain. *)
Lemma domain_match_spec (host domain : string) :
  bool_decide (host = domain) || endsWith host ("." +:+ domain) = true <->
  host = domain \/ exists label, host = label +:+ "." +:+ domain.
Proof.
  rewrite orb_true_iff, bool_decide_eq_true, endsWith_spec. reflexivity.
Qed.

Section OriginGuard.

Variable url_hostname : string -> option string.

Lemma isOriginAllowed_no_domains (site : Site) (origin : option string) :
  site_domains site = [] -> isOriginAllowed url_hostname (Some site) origin = true.
Proof. intros H. unfold isOriginAllowed. now rewrite H. Qed.

Lemma isOriginAllowed_no_site (origin : option string) :
  isOriginAllowed url_hostname None origin = true.
Proof. reflexivity. Qed.

Lemma isOriginAllowed_no_host (site : Site) (origin : option string) :
  truthy (getOriginHost url_hostname origin) = false ->
  isOriginAllowed url_hostname (Some site) origin = true.
Proof.
  intros H. unfold isOriginAllowed. rewrite H.
  now destruct (bool_decide _).
Qed.

(** With a domain list and a parsed, non-empty hostname the answer is
    the search through the list. *)
Lemma isOriginAllowed_parsed (site : Site) (o host : string) :
  site_domains site <> [] -> o <> EmptyString ->
  url_hostname o = Some host -> host <> EmptyString ->
  isOriginAllowed url_hostname (Some site) (Some o)
  = existsb (fun domain => bool_decide (host = domain)
                           || endsWith host ("." +:+ domain))
            (site_domains site).
Proof.
  intros Hd Ho Hu Hh. unfold isOriginAllowed, getOriginHost.
  rewrite bool_decide_eq_false_2 by exact Hd.
  assert (truthy (Some o) = true) as -> by (apply truthy_Some; eauto).
  simpl. rewrite Hu.
  assert (truthy (Some host) = true) as -> by (apply truthy_Some; eauto).
  reflexivity.
Qed.

End OriginGuard.

(** C2. [isOriginAllowed site origin] is true exactly when the site's
    domain list is empty, or the origin is absent (or the empty string) or
    yields no hostname (the URL constructor throws, or the hostname it
    gives is empty), or the hostname equals a configured domain, or the
    hostname ends with a dot followed by a configured domain.  A hostname
    that is a configured domain preceded by a non-empty prefix that does
    not end with a dot (as [notdomain.com] against [domain.com]) is
    refused when that domain is the only one configured. *)
Theorem isOriginAllowed_exactly
  (url_hostname : string -> option string) (site : Site) (origin : option string) :
  (isOriginAllowed url_hostname (Some site) origin = true <->
     site_domains site = []
     \/ (origin = None \/ origin = Some EmptyString
         \/ exists o, origin = Some o
                      /\ (url_hostname o = None \/ url_hostname o = Some EmptyString))
     \/ exists o host domain,
          origin = Some o /\ url_hostname o = Some host
          /\ In domain (site_domains site)
          /\ (host = domain \/ exists label, host = label +:+ "." +:+ domain))
  /\ (forall o prefix domain,
        site_domains site = [domain] -> origin = Some o -> o <> EmptyString ->
        url_hostname o = Some (prefix +:+ domain) ->
        prefix <> EmptyString -> (forall label, prefix <> label +:+ ".") ->
        isOriginAllowed url_hostname (Some site) origin = false).
Proof.
  split.
  - destruct (decide (site_domains site = [])) as [Hd | Hd].
    { rewrite isOriginAllowed_no_domains by exact Hd. tauto. }
    destruct origin as [o|];
      [| split; [tauto | intros _; now apply isOriginAllowed_no_host]].
    destruct (decide (o = EmptyString)) as [-> | Ho].
    { split; [tauto | intros _; now apply isOriginAllowed_no_host]. }
    assert (getOriginHost url_hostname (Some o) = url_hostname o) as Hg.
    { unfold getOriginHost.
      assert (truthy (Some o) = true) as -> by (apply truthy_Some; eauto).
      reflexivity. }
    destruct (url_hostname o) as [host|] eqn:Hu.
    + destruct (decide (host = EmptyString)) as [-> | Hh].
      { split; [intros _; right; left; right; right; eauto |].
        intros _. apply isOriginAllowed_no_host. now rewrite Hg. }
      rewrite (isOriginAllowed_parsed _ _ _ _ Hd Ho Hu Hh), existsb_exists.
      split.
      * intros (domain & Hin & Hm). apply domain_match_spec in Hm.
        right; right. exists o, host, domain. auto.
      * intros [H | [H | H]]; [contradiction | |].
        { destruct H as [H | [H | (o' & [= <-] & [H | H])]]; congruence. }
        destruct H as (o' & host' & domain & [= <-] & Hu' & Hin & Hm).
        rewrite Hu in Hu'. injection Hu' as <-.
        exists domain. split; [exact Hin | now apply domain_match_spec].
    + split; [intros _; right; left; right; right; eauto |].
      intros _. apply isOriginAllowed_no_host. now rewrite Hg.
  - intros o prefix domain Hd -> Ho Hu Hp Hdot.
    rewrite (isOriginAllowed_parsed url_hostname site o (prefix +:+ domain));
      [| rewrite Hd; discriminate | exact Ho | exact Hu | now apply append_nonempty].
    rewrite Hd. simpl. rewrite orb_false_r.
    apply not_true_is_false. intros Hm. apply domain_match_spec in Hm.
    destruct Hm as [Hm | [label Hm]].
    + now apply append_not_suffix_itself in Hm.
    + rewrite <- append_assoc in Hm. apply append_cancel_r in Hm.
      now apply Hdot in Hm.
Qed.

(** ** Running the storage operations *)

Lemma set_pool_same (w : World) (db : Db) (n : nat) :
  pool w = Some db -> set_pool (Some db) (set_db_calls n w) = set_db_calls n w.
Proof. destruct w; simpl; now intros ->. Qed.

Lemma findSiteBySiteKey_run (siteKey : string) (w : World) :
  siteKey <> EmptyString ->
  findSiteBySiteKey siteKey w =
    if next_query_fails w then (Throw DbError, after_query w)
    else (Return (site_of siteKey w), after_query w).
Proof.
  intros Hk. unfold findSiteBySiteKey, next_query_fails, after_query, site_of.
  rewrite bool_decide_eq_false_2 by exact Hk.
  destruct (pool w) as [db|] eqn:Hp; [| reflexivity].
  unfold pool_query, select_site.
  destruct (dbFault (env w) (db_calls w)); [reflexivity |].
  now rewrite set_pool_same.
Qed.

Lemma storeSubmission_run (entry : Submission) (w : World) :
  storeSubmission entry w =
    if storage_accepts (sub_eventId entry) w then (Return tt, stored entry w)
    else (Throw DbError, after_query w).
Proof.
  unfold storeSubmission, storage_accepts, stored, after_query.
  destruct (pool w) as [db|] eqn:Hp; [| reflexivity].
  unfold pool_query, insert_submission. simpl.
  destruct (dbFault (env w) (db_calls w)); [reflexivity |].
  now destruct (existsb _ _).
Qed.

(** A query touches nothing but the count of queries. *)
Lemma after_query_frame (w : World) :
  env (after_query w) = env w /\ ticks (after_query w) = ticks w
  /\ rb_calls (after_query w) = rb_calls w /\ mr_calls (after_query w) = mr_calls w
  /\ pool (after_query w) = pool w /\ sites (after_query w) = sites w
  /\ submissions (after_query w) = submissions w
  /\ challengeTokens (after_query w) = challengeTokens w
  /\ accessTokens (after_query w) = accessTokens w.
Proof.
  unfold after_query. destruct w as [e t r m d [db|] s sb c a]; simpl;
    repeat split; reflexivity.
Qed.

Lemma after_query_env w : env (after_query w) = env w.
Proof. apply after_query_frame. Qed.
Lemma after_query_ticks w : ticks (after_query w) = ticks w.
Proof. apply after_query_frame. Qed.
Lemma after_query_rb_calls w : rb_calls (after_query w) = rb_calls w.
Proof. apply after_query_frame. Qed.
Lemma after_query_mr_calls w : mr_calls (after_query w) = mr_calls w.
Proof. apply after_query_frame. Qed.
Lemma after_query_pool w : pool (after_query w) = pool w.
Proof. apply after_query_frame. Qed.
Lemma after_query_sites w : sites (after_query w) = sites w.
Proof. apply after_query_frame. Qed.
Lemma after_query_submissions w : submissions (after_query w) = submissions w.
Proof. apply after_query_frame. Qed.
Lemma after_query_challengeTokens w : challengeTokens (after_query w) = challengeTokens w.
Proof. apply after_query_frame. Qed.
Lemma after_query_accessTokens w : accessTokens (after_query w) = accessTokens w.
Proof. apply after_query_frame. Qed.

Lemma after_query_stored_submissions w :
  stored_submissions (after_query w) = stored_submissions w.
Proof. unfold stored_submissions. now rewrite after_query_pool, after_query_submissions. Qed.

Create Rewrite HintDb world.
#[global] Hint Rewrite after_query_env after_query_ticks after_query_rb_calls
  after_query_mr_calls after_query_pool after_query_sites
  after_query_submissions after_query_challengeTokens
  after_query_accessTokens : world.

(** ** Running the handlers *)

Ltac unfold_monad :=
  cbv beta iota zeta delta
    [try_catch mbind M_bind mret M_ret get_world modify
     isTokenExpired generateToken date_now crypto_randomBytes_hex
     math_random_base36].

Section Runs.

Variable url_hostname : string -> option string.
Variable cfg : Config.

Lemma post_verify_run (req : VerifyRequest) (w : World) (siteKey token : string) :
  vr_siteKey req = Some siteKey -> siteKey <> EmptyString ->
  vr_token req = Some token -> token <> EmptyString ->
  post_verify url_hostname cfg req w =
    if next_query_fails w
    then (Return (RespError 500 verification_failed), after_query w)
    else if bool_decide (is_Some (site_of siteKey w))
            && negb (isOriginAllowed url_hostname (site_of siteKey w) (vr_origin req))
    then (Return (RespError 403 origin_not_allowed), after_query w)
    else match challengeTokens w !! token with
         | None => (Return (RespError 401 invalid_token), after_query w)
         | Some record =>
             if negb (bool_decide (chl_siteKey record = siteKey))
             then (Return (RespError 401 invalid_token), after_query w)
             else if now_of w - chl_issuedAt record >? tokenTtlMs cfg
             then (Return (RespError 401 token_expired),
                   set_ticks (S (ticks w)) (after_query w))
             else (Return (RespVerify ("acc_" +:+ randomBytesHex (env w) (rb_calls w))),
                   verified_world siteKey token record w)
         end.
Proof.
  intros Hs Hs' Ht Ht'. unfold post_verify. rewrite Hs, Ht.
  assert (truthy (Some siteKey) = true) as -> by (apply truthy_Some; eauto).
  assert (truthy (Some token) = true) as -> by (apply truthy_Some; eauto).
  simpl. unfold_monad. rewrite findSiteBySiteKey_run by exact Hs'.
  destruct (next_query_fails w); [reflexivity |].
  destruct (bool_decide (is_Some (site_of siteKey w))
            && negb (isOriginAllowed url_hostname (site_of siteKey w) (vr_origin req)));
    [reflexivity |].
  autorewrite with world.
  destruct (challengeTokens w !! token) as [record|]; [| reflexivity].
  destruct (negb (bool_decide (chl_siteKey record = siteKey))); [reflexivity |].
  unfold now_of, verified_world. autorewrite with world.
  destruct (clock (env w) (ticks w) - chl_issuedAt record >? tokenTtlMs cfg);
    [reflexivity |].
  simpl. autorewrite with world. reflexivity.
Qed.

Lemma post_submit_run (req : SubmitRequest) (w : World)
      (siteKey : string) (payload : json) :
  sr_payload req = Some payload ->
  sr_siteKey req = Some siteKey -> siteKey <> EmptyString ->
  truthy (sr_token req) || truthy (sr_accessToken req) = true ->
  truthy (sr_honeypot req) = false ->
  post_submit url_hostname cfg req w =
    if next_query_fails w
    then (Return (RespError 500 storage_failed), after_query w)
    else if bool_decide (is_Some (site_of siteKey w))
            && negb (isOriginAllowed url_hostname (site_of siteKey w) (sr_origin req))
    then (Return (RespError 403 origin_not_allowed), after_query w)
    else redeem_phase cfg req siteKey payload w.
Proof.
  intros Hp Hs Hs' Ht Hh. unfold post_submit. rewrite Hp, Hs, Hh.
  assert (truthy (Some siteKey) = true) as -> by (apply truthy_Some; eauto).
  assert (negb (truthy (sr_token req)) && negb (truthy (sr_accessToken req)) = false)
    as -> by (rewrite <- negb_orb, Ht; reflexivity).
  simpl. unfold redeem. unfold_monad. rewrite findSiteBySiteKey_run by exact Hs'.
  destruct (next_query_fails w); [reflexivity |].
  destruct (bool_decide (is_Some (site_of siteKey w))
            && negb (isOriginAllowed url_hostname (site_of siteKey w) (sr_origin req)));
    [reflexivity |].
  unfold redeem_phase, store_phase, now_of.
  destruct (truthy (sr_accessToken req)); unfold_monad; autorewrite with world.
  - destruct (accessTokens w !! str (sr_accessToken req)) as [accessRecord|];
      [| reflexivity].
    destruct (negb (bool_decide (acc_siteKey accessRecord = siteKey))); [reflexivity |].
    autorewrite with world.
    destruct (clock (env w) (ticks w) - acc_issuedAt accessRecord >? tokenTtlMs cfg);
      [reflexivity |].
    rewrite storeSubmission_run. simpl. autorewrite with world.
    now destruct (storage_accepts _ _).
  - destruct (challengeTokens w !! str (sr_token req)) as [record|]; [| reflexivity].
    destruct (negb (bool_decide (chl_siteKey record = siteKey))); [reflexivity |].
    autorewrite with world.
    destruct (clock (env w) (ticks w) - chl_issuedAt record >? tokenTtlMs cfg);
      [reflexivity |].
    simpl. autorewrite with world.
    destruct (clock (env w) (S (ticks w)) - chl_issuedAt record <? minSubmitDelayMs cfg);
      [reflexivity |].
    rewrite storeSubmission_run. simpl. autorewrite with world.
    now destruct (storage_accepts _ _).
Qed.

Lemma post_challenge_run (req : ChallengeRequest) (w : World) (siteKey : string) :
  cr_siteKey req = Some siteKey -> siteKey <> EmptyString ->
  post_challenge req w =
    (Return (RespChallenge ("chl_" +:+ render (now_of w))
                           ("tok_" +:+ randomBytesHex (env w) (rb_calls w))),
     issued_world siteKey w).
Proof.
  intros Hs Hs'. unfold post_challenge. rewrite Hs.
  assert (truthy (Some siteKey) = true) as -> by (apply truthy_Some; eauto).
  reflexivity.
Qed.

Lemma post_verify_missing (req : VerifyRequest) (w : World) :
  truthy (vr_siteKey req) && truthy (vr_token req) = false ->
  post_verify url_hostname cfg req w = (Return (RespError 400 missing_fields), w).
Proof.
  intros H. unfold post_verify. rewrite <- negb_andb, H. reflexivity.
Qed.

Lemma post_submit_missing (req : SubmitRequest) (w : World) :
  sr_payload req = None
  \/ truthy (sr_siteKey req) && (truthy (sr_token req) || truthy (sr_accessToken req))
     = false ->
  post_submit url_hostname cfg req w = (Return (RespError 400 missing_fields), w).
Proof.
  intros H. unfold post_submit.
  destruct (sr_payload req) as [payload|]; [| reflexivity].
  destruct H as [H | H]; [discriminate |].
  rewrite <- negb_orb, <- negb_andb, H. reflexivity.
Qed.

Lemma post_submit_honeypot (req : SubmitRequest) (w : World) (payload : json) :
  sr_payload req = Some payload ->
  truthy (sr_siteKey req) = true ->
  truthy (sr_token req) || truthy (sr_accessToken req) = true ->
  truthy (sr_honeypot req) = true ->
  post_submit url_hostname cfg req w = (Return (RespError 400 honeypot_triggered), w).
Proof.
  intros Hp Hs Ht Hh. unfold post_submit.
  rewrite Hp, Hs, Hh, <- negb_orb, Ht. reflexivity.
Qed.

End Runs.

(** ** Expiry *)

Lemma gtb_at_boundary (elapsed ttl : Z) : elapsed = ttl -> (elapsed >? ttl) = false.
Proof. intros ->. rewrite Z.gtb_ltb. apply Z.ltb_irrefl. Qed.

Lemma isTokenExpired_run (cfg : Config) (issuedAt : Z) (w : World) :
  isTokenExpired cfg issuedAt w
  = (Return (now_of w - issuedAt >? tokenTtlMs cfg), set_ticks (S (ticks w)) w).
Proof. reflexivity. Qed.

(** C3. A token counts as expired exactly when the clock reading minus
    [issuedAt] is strictly greater than the configured TTL, which is five
    minutes when [TOKEN_TTL_MS] is not set; when the difference equals the
    TTL, neither [/v1/verify] nor [/v1/submit] answers [token_expired] for
    a challenge token, and [/v1/submit] does not answer
    [access_token_expired] for an access token. *)
Theorem token_expiry_is_strict
  (url_hostname : string -> option string) (cfg : Config) :
  (forall issuedAt w,
      fst (isTokenExpired cfg issuedAt w) = Return true
      <-> now_of w - issuedAt > tokenTtlMs cfg)
  /\ (forall admin, tokenTtlMs (default_config admin) = 5 * (60 * 1000))
  /\ (forall req w record,
        challengeTokens w !! str (vr_token req) = Some record ->
        now_of w - chl_issuedAt record = tokenTtlMs cfg ->
        fst (post_verify url_hostname cfg req w) <> Return (RespError 401 token_expired))
  /\ (forall req w record,
        challengeTokens w !! str (sr_token req) = Some record ->
        now_of w - chl_issuedAt record = tokenTtlMs cfg ->
        fst (post_submit url_hostname cfg req w) <> Return (RespError 401 token_expired))
  /\ (forall req w accessRecord,
        accessTokens w !! str (sr_accessToken req) = Some accessRecord ->
        now_of w - acc_issuedAt accessRecord = tokenTtlMs cfg ->
        fst (post_submit url_hostname cfg req w)
        <> Return (RespError 401 access_token_expired)).
Proof.
  split; [| split; [| split; [| split]]].
  - intros issuedAt w. rewrite isTokenExpired_run. simpl.
    split; [intros [= H]; now apply Z.gtb_gt | intros H; f_equal; now apply Z.gtb_gt].
  - reflexivity.
  - intros req w record Hrec Hel.
    destruct (truthy (vr_siteKey req) && truthy (vr_token req)) eqn:Hf.
    + apply andb_true_iff in Hf as [Hs Ht].
      apply truthy_Some in Hs as (siteKey & Hs & Hs').
      apply truthy_Some in Ht as (token & Ht & Ht').
      rewrite (post_verify_run _ _ _ _ _ _ Hs Hs' Ht Ht').
      rewrite Ht in Hrec. simpl in Hrec. rewrite Hrec, (gtb_at_boundary _ _ Hel).
      repeat (match goal with |- context [if ?c then _ else _] => destruct c end);
        simpl; discriminate.
    + rewrite post_verify_missing by exact Hf. simpl. discriminate.
  - intros req w record Hrec Hel.
    destruct (sr_payload req) as [payload|] eqn:Hp;
      [| rewrite post_submit_missing by (now left); simpl; discriminate].
    destruct (truthy (sr_siteKey req)
              && (truthy (sr_token req) || truthy (sr_accessToken req))) eqn:Hf;
      [| rewrite post_submit_missing by (now right); simpl; discriminate].
    apply andb_true_iff in Hf as [Hs Ht].
    destruct (truthy (sr_honeypot req)) eqn:Hh;
      [rewrite (post_submit_honeypot _ _ _ _ _ Hp Hs Ht Hh); simpl; discriminate |].
    apply truthy_Some in Hs as (siteKey & Hs & Hs').
    rewrite (post_submit_run _ _ _ _ _ _ Hp Hs Hs' Ht Hh).
    unfold redeem_phase, store_phase.
    rewrite Hrec, (gtb_at_boundary _ _ Hel).
    repeat (match goal with
            | |- context [if ?c then _ else _] => destruct c
            | |- context [match ?c with Some _ => _ | None => _ end] => destruct c
            end);
      simpl; discriminate.
  - intros req w accessRecord Hrec Hel.
    destruct (sr_payload req) as [payload|] eqn:Hp;
      [| rewrite post_submit_missing by (now left); simpl; discriminate].
    destruct (truthy (sr_siteKey req)
              && (truthy (sr_token req) || truthy (sr_accessToken req))) eqn:Hf;
      [| rewrite post_submit_missing by (now right); simpl; discriminate].
    apply andb_true_iff in Hf as [Hs Ht].
    destruct (truthy (sr_honeypot req)) eqn:Hh;
      [rewrite (post_submit_honeypot _ _ _ _ _ Hp Hs Ht Hh); simpl; discriminate |].
    apply truthy_Some in Hs as (siteKey & Hs & Hs').
    rewrite (post_submit_run _ _ _ _ _ _ Hp Hs Hs' Ht Hh).
    unfold redeem_phase, store_phase.
    rewrite Hrec, (gtb_at_boundary _ _ Hel).
    repeat (match goal with
            | |- context [if ?c then _ else _] => destruct c
            | |- context [match ?c with Some _ => _ | None => _ end] => destruct c
            end);
      simpl; discriminate.
Qed.

(** ** The honeypot *)

(** C5. When the required fields are present and [honeypot] is a
    non-empty string, [/v1/submit] answers 400 [honeypot_triggered] and
    hands the world back as it found it, whatever the world holds: no
    query was sent and no clock was read (so neither the site lookup, nor
    the origin check, nor the token checks ran), no token record changed
    and nothing was stored. *)
Theorem honeypot_rejected_before_everything
  (url_hostname : string -> option string) (cfg : Config)
  (req : SubmitRequest) (w : World) (payload : json) (bait : string) :
  sr_payload req = Some payload ->
  truthy (sr_siteKey req) = true ->
  truthy (sr_token req) || truthy (sr_accessToken req) = true ->
  sr_honeypot req = Some bait -> bait <> EmptyString ->
  post_submit url_hostname cfg req w = (Return (RespError 400 honeypot_triggered), w).
Proof.
  intros Hp Hs Ht Hh Hb. apply (post_submit_honeypot _ _ _ _ payload); try assumption.
  apply truthy_Some. eauto.
Qed.

(** ** Verification *)

Lemma site_of_frame (siteKey : string) (w w' : World) :
  pool w' = pool w -> sites w' = sites w -> site_of siteKey w' = site_of siteKey w.
Proof. unfold site_of. now intros -> ->. Qed.

Lemma verified_world_frame (siteKey token : string) (record : ChallengeRecord) (w : World) :
  let w' := verified_world siteKey token record w in
  env w' = env w /\ pool w' = pool w /\ sites w' = sites w
  /\ submissions w' = submissions w
  /\ db_calls w' = db_calls (after_query w)
  /\ ticks w' = S (S (ticks w))
  /\ challengeTokens w'
     = <[token := mkChallenge (chl_siteKey record) (chl_issuedAt record) true]>
         (challengeTokens w).
Proof.
  unfold verified_world, accessTokens_set, mark_verified, challengeTokens_set.
  simpl. autorewrite with world. repeat split; reflexivity.
Qed.

(** What a successful verification tells about the world it started in. *)
Lemma post_verify_success_inv
  (url_hostname : string -> option string) (cfg : Config)
  (req : VerifyRequest) (w w' : World) (accessToken : string) :
  post_verify url_hostname cfg req w = (Return (RespVerify accessToken), w') ->
  exists siteKey token record,
    vr_siteKey req = Some siteKey /\ siteKey <> EmptyString
    /\ vr_token req = Some token /\ token <> EmptyString
    /\ next_query_fails w = false
    /\ bool_decide (is_Some (site_of siteKey w))
       && negb (isOriginAllowed url_hostname (site_of siteKey w) (vr_origin req)) = false
    /\ challengeTokens w !! token = Some record
    /\ chl_siteKey record = siteKey
    /\ now_of w - chl_issuedAt record <= tokenTtlMs cfg
    /\ accessToken = "acc_" +:+ randomBytesHex (env w) (rb_calls w)
    /\ w' = verified_world siteKey token record w.
Proof.
  intros H.
  destruct (truthy (vr_siteKey req) && truthy (vr_token req)) eqn:Hf;
    [| rewrite post_verify_missing in H by exact Hf; discriminate].
  apply andb_true_iff in Hf as [Hs Ht].
  apply truthy_Some in Hs as (siteKey & Hs & Hs').
  apply truthy_Some in Ht as (token & Ht & Ht').
  rewrite (post_verify_run _ _ _ _ _ _ Hs Hs' Ht Ht') in H.
  destruct (next_query_fails w) eqn:Hq; [discriminate |].
  destruct (bool_decide (is_Some (site_of siteKey w)) && _) eqn:Ho; [discriminate |].
  destruct (challengeTokens w !! token) as [record|] eqn:Hr; [| discriminate].
  destruct (bool_decide (chl_siteKey record = siteKey)) eqn:Hk; [| discriminate].
  apply bool_decide_eq_true in Hk. simpl in H.
  destruct (now_of w - chl_issuedAt record >? tokenTtlMs cfg) eqn:He; [discriminate |].
  injection H as <- <-.
  exists siteKey, token, record.
  repeat (split; [assumption || reflexivity |]).
  split; [| split; reflexivity].
  rewrite Z.gtb_ltb in He. apply Z.ltb_ge in He. exact He.
Qed.

(** The parts of the lifecycle that the handler does keep: a known,
    unexpired token bound to the site key verifies, and an expired one is
    turned away as such, once the lookup and the origin check are passed. *)
Lemma post_verify_in_time
  (url_hostname : string -> option string) (cfg : Config)
  (req : VerifyRequest) (w : World) (siteKey token : string) (record : ChallengeRecord) :
  vr_siteKey req = Some siteKey -> siteKey <> EmptyString ->
  vr_token req = Some token -> token <> EmptyString ->
  next_query_fails w = false ->
  bool_decide (is_Some (site_of siteKey w))
  && negb (isOriginAllowed url_hostname (site_of siteKey w) (vr_origin req)) = false ->
  challengeTokens w !! token = Some record ->
  chl_siteKey record = siteKey ->
  now_of w - chl_issuedAt record <= tokenTtlMs cfg ->
  post_verify url_hostname cfg req w
  = (Return (RespVerify ("acc_" +:+ randomBytesHex (env w) (rb_calls w))),
     verified_world siteKey token record w).
Proof.
  intros Hs Hs' Ht Ht' Hq Ho Hr Hk Hel.
  rewrite (post_verify_run _ _ _ _ _ _ Hs Hs' Ht Ht'), Hq, Ho, Hr.
  rewrite bool_decide_eq_true_2 by exact Hk. cbn [negb].
  assert ((now_of w - chl_issuedAt record >? tokenTtlMs cfg) = false) as ->
    by (rewrite Z.gtb_ltb; apply Z.ltb_ge; exact Hel).
  reflexivity.
Qed.

Lemma post_verify_after_ttl
  (url_hostname : string -> option string) (cfg : Config)
  (req : VerifyRequest) (w : World) (siteKey token : string) (record : ChallengeRecord) :
  vr_siteKey req = Some siteKey -> siteKey <> EmptyString ->
  vr_token req = Some token -> token <> EmptyString ->
  next_query_fails w = false ->
  bool_decide (is_Some (site_of siteKey w))
  && negb (isOriginAllowed url_hostname (site_of siteKey w) (vr_origin req)) = false ->
  challengeTokens w !! token = Some record ->
  chl_siteKey record = siteKey ->
  tokenTtlMs cfg < now_of w - chl_issuedAt record ->
  post_verify url_hostname cfg req w
  = (Return (RespError 401 token_expired), set_ticks (S (ticks w)) (after_query w)).
Proof.
  intros Hs Hs' Ht Ht' Hq Ho Hr Hk Hel.
  rewrite (post_verify_run _ _ _ _ _ _ Hs Hs' Ht Ht'), Hq, Ho, Hr.
  rewrite bool_decide_eq_true_2 by exact Hk. cbn [negb].
  assert ((now_of w - chl_issuedAt record >? tokenTtlMs cfg) = true) as ->
    by (apply Z.gtb_gt; lia).
  reflexivity.
Qed.

(** C1 (the defect). A successful [/v1/verify] can be repeated: when a
    verification has succeeded, the same request succeeds again as long
    as the token has not expired at the second call and the site lookup
    of the second call is not rejected by the database.  The [verified]
    flag that the first call sets is never read. *)
Theorem verify_succeeds_again
  (url_hostname : string -> option string) (cfg : Config)
  (req : VerifyRequest) (w w' : World) (accessToken : string)
  (record : ChallengeRecord) :
  post_verify url_hostname cfg req w = (Return (RespVerify accessToken), w') ->
  challengeTokens w !! str (vr_token req) = Some record ->
  next_query_fails w' = false ->
  now_of w' - chl_issuedAt record <= tokenTtlMs cfg ->
  exists accessToken' w'',
    post_verify url_hostname cfg req w' = (Return (RespVerify accessToken'), w'')
    /\ challengeTokens w' !! str (vr_token req)
       = Some (mkChallenge (chl_siteKey record) (chl_issuedAt record) true).
Proof.
  intros H Hrec Hq' Hel.
  apply post_verify_success_inv in H
    as (siteKey & token & record' & Hs & Hs' & Ht & Ht' & _ & Ho & Hr & Hk & _ & _ & ->).
  rewrite Ht in Hrec. simpl in Hrec. rewrite Hr in Hrec. injection Hrec as ->.
  destruct (verified_world_frame siteKey token record w)
    as (Henv & Hpool & Hsites & _ & _ & _ & Hct).
  assert (challengeTokens (verified_world siteKey token record w) !! token
          = Some (mkChallenge (chl_siteKey record) (chl_issuedAt record) true)) as Hr'
    by (rewrite Hct; apply lookup_insert_eq).
  assert ((now_of (verified_world siteKey token record w) - chl_issuedAt record
           >? tokenTtlMs cfg) = false) as He'
    by (rewrite Z.gtb_ltb; apply Z.ltb_ge; exact Hel).
  rewrite (post_verify_run _ _ _ _ _ _ Hs Hs' Ht Ht'), Hq'.
  rewrite (site_of_frame siteKey _ _ Hpool Hsites), Ho, Ht, str_Some, Hr'.
  cbn [chl_siteKey chl_issuedAt].
  rewrite bool_decide_eq_true_2 by exact Hk. cbn [negb]. rewrite He'.
  eauto.
Qed.

(** ** Submission: the token checks *)

Lemma stored_frame (entry : Submission) (w : World) :
  env (stored entry w) = env w
  /\ ticks (stored entry w) = ticks w
  /\ challengeTokens (stored entry w) = challengeTokens w
  /\ accessTokens (stored entry w) = accessTokens w
  /\ stored_submissions (stored entry w) = stored_submissions w ++ [persisted entry w].
Proof.
  unfold stored, stored_submissions, persisted.
  destruct w as [e t r m d [db|] s sb c a]; simpl; repeat split; reflexivity.
Qed.

Lemma store_phase_accepted (req : SubmitRequest) (siteKey : string) (payload : json)
      (w : World) :
  let eventId := "evt_" +:+ render (now_of w) in
  let entry := mkSubmission eventId siteKey payload (sr_fingerprint req)
                            (sr_ip req) (sr_ua req) (sr_origin req) in
  storage_accepts eventId (set_ticks (S (ticks w)) w) = true ->
  exists w',
    store_phase req siteKey payload w = (Return (RespSubmit eventId), w')
    /\ challengeTokens w' = challengeTokens w
    /\ accessTokens w' = accessTokens w
    /\ stored_submissions w' = stored_submissions w ++ [persisted entry w].
Proof.
  intros eventId entry Hacc. unfold store_phase. fold eventId. fold entry.
  rewrite Hacc. eexists. split; [reflexivity |].
  destruct (stored_frame entry (set_ticks (S (ticks w)) w)) as (_ & _ & Hc & Ha & Hs).
  rewrite Hc, Ha, Hs. repeat split; reflexivity.
Qed.

Lemma store_phase_refused (req : SubmitRequest) (siteKey : string) (payload : json)
      (w : World) :
  storage_accepts ("evt_" +:+ render (now_of w)) (set_ticks (S (ticks w)) w) = false ->
  store_phase req siteKey payload w
  = (Return (RespError 500 storage_failed), after_query (set_ticks (S (ticks w)) w)).
Proof. intros Hacc. unfold store_phase. now rewrite Hacc. Qed.

Lemma storage_accepts_frame (eventId : string) (w w' : World) :
  pool w' = pool w -> env w' = env w -> db_calls w' = db_calls w ->
  storage_accepts eventId w' = storage_accepts eventId w.
Proof. unfold storage_accepts. now intros -> -> ->. Qed.

Lemma mark_verified_frame (token : string) (record : ChallengeRecord) (w : World) :
  env (mark_verified token record w) = env w
  /\ ticks (mark_verified token record w) = ticks w
  /\ pool (mark_verified token record w) = pool w
  /\ db_calls (mark_verified token record w) = db_calls w
  /\ accessTokens (mark_verified token record w) = accessTokens w
  /\ stored_submissions (mark_verified token record w) = stored_submissions w
  /\ challengeTokens (mark_verified token record w) !! token
     = Some (mkChallenge (chl_siteKey record) (chl_issuedAt record) true).
Proof.
  unfold mark_verified, challengeTokens_set, stored_submissions. simpl.
  repeat split; try reflexivity. apply lookup_insert_eq.
Qed.

(** The world in which the submit handler reaches its token checks: the
    site lookup has been counted. *)
Lemma submit_checks_world_frame (n : nat) (w : World) :
  let w1 := set_ticks n (after_query w) in
  env w1 = env w /\ pool w1 = pool w /\ sites w1 = sites w
  /\ challengeTokens w1 = challengeTokens w /\ accessTokens w1 = accessTokens w
  /\ stored_submissions w1 = stored_submissions w /\ ticks w1 = n.
Proof.
  unfold stored_submissions. simpl. autorewrite with world.
  repeat split; reflexivity.
Qed.

Section SubmitTokenChecks.

Variable url_hostname : string -> option string.
Variable cfg : Config.
Variables (req : SubmitRequest) (siteKey : string) (payload : json).

Hypothesis Hpayload : sr_payload req = Some payload.
Hypothesis HsiteKey : sr_siteKey req = Some siteKey.
Hypothesis HsiteKey' : siteKey <> EmptyString.
Hypothesis Hhoneypot : truthy (sr_honeypot req) = false.

(** With an access token: existence, site key, age. *)
Lemma post_submit_access_run (cfg' : Config) (w : World) (accessToken : string) :
  tokenTtlMs cfg' = tokenTtlMs cfg ->
  sr_accessToken req = Some accessToken -> accessToken <> EmptyString ->
  next_query_fails w = false -> origin_passes url_hostname req siteKey w ->
  post_submit url_hostname cfg' req w
  = match accessTokens w !! accessToken with
    | None => (Return (RespError 401 invalid_access_token), after_query w)
    | Some accessRecord =>
        if negb (bool_decide (acc_siteKey accessRecord = siteKey))
        then (Return (RespError 401 invalid_access_token), after_query w)
        else if now_of w - acc_issuedAt accessRecord >? tokenTtlMs cfg
        then (Return (RespError 401 access_token_expired),
              set_ticks (S (ticks w)) (after_query w))
        else store_phase req siteKey payload (set_ticks (S (ticks w)) (after_query w))
    end.
Proof.
  intros Httl Ha Ha' Hq Ho.
  assert (truthy (sr_accessToken req) = true) as Hta by (apply truthy_Some; eauto).
  assert (truthy (sr_token req) || truthy (sr_accessToken req) = true) as Ht
    by (rewrite Hta; apply orb_true_r).
  rewrite (post_submit_run _ _ _ _ _ _ Hpayload HsiteKey HsiteKey' Ht Hhoneypot), Hq.
  unfold origin_passes in Ho. rewrite Ho.
  unfold redeem_phase. rewrite Hta, Ha, str_Some, Httl. reflexivity.
Qed.

(** With a raw token whose record is bound to the site key and has not
    expired: the delay check, then the store. *)
Lemma post_submit_token_run (w : World) (token : string) (record : ChallengeRecord) :
  truthy (sr_accessToken req) = false ->
  sr_token req = Some token -> token <> EmptyString ->
  next_query_fails w = false -> origin_passes url_hostname req siteKey w ->
  challengeTokens w !! token = Some record ->
  chl_siteKey record = siteKey ->
  now_of w - chl_issuedAt record <= tokenTtlMs cfg ->
  post_submit url_hostname cfg req w
  = if clock (env w) (S (ticks w)) - chl_issuedAt record <? minSubmitDelayMs cfg
    then (Return (RespError 429 submit_too_fast),
          set_ticks (S (S (ticks w))) (after_query w))
    else store_phase req siteKey payload
           (mark_verified token record (set_ticks (S (S (ticks w))) (after_query w))).
Proof.
  intros Hta Htk Htk' Hq Ho Hr Hk Hel.
  assert (truthy (sr_token req) = true) as Htt by (apply truthy_Some; eauto).
  assert (truthy (sr_token req) || truthy (sr_accessToken req) = true) as Ht
    by (rewrite Htt; reflexivity).
  rewrite (post_submit_run _ _ _ _ _ _ Hpayload HsiteKey HsiteKey' Ht Hhoneypot), Hq.
  unfold origin_passes in Ho. rewrite Ho.
  unfold redeem_phase. rewrite Hta, Htk, str_Some, Hr.
  rewrite bool_decide_eq_true_2 by exact Hk. cbn [negb].
  assert ((now_of w - chl_issuedAt record >? tokenTtlMs cfg) = false) as ->
    by (rewrite Z.gtb_ltb; apply Z.ltb_ge; exact Hel).
  reflexivity.
Qed.

(** The accepted case of [post_submit_token_run]. *)
Lemma post_submit_token_accepted (w : World) (token : string) (record : ChallengeRecord) :
  truthy (sr_accessToken req) = false ->
  sr_token req = Some token -> token <> EmptyString ->
  next_query_fails w = false -> origin_passes url_hostname req siteKey w ->
  challengeTokens w !! token = Some record ->
  chl_siteKey record = siteKey ->
  now_of w - chl_issuedAt record <= tokenTtlMs cfg ->
  minSubmitDelayMs cfg <= clock (env w) (S (ticks w)) - chl_issuedAt record ->
  let w1 := set_ticks (S (S (ticks w))) (after_query w) in
  let eventId := "evt_" +:+ render (clock (env w) (S (S (ticks w)))) in
  let entry := mkSubmission eventId siteKey payload (sr_fingerprint req)
                            (sr_ip req) (sr_ua req) (sr_origin req) in
  storage_accepts eventId (after_query w) = true ->
  exists w',
    post_submit url_hostname cfg req w = (Return (RespSubmit eventId), w')
    /\ challengeTokens w' !! token
       = Some (mkChallenge (chl_siteKey record) (chl_issuedAt record) true)
    /\ accessTokens w' = accessTokens w
    /\ stored_submissions w' = stored_submissions w ++ [persisted entry w].
Proof.
  intros Hta Htk Htk' Hq Ho Hr Hk Hel Hslow w1 eventId entry Hacc.
  rewrite (post_submit_token_run w token record) by assumption.
  apply Z.ltb_ge in Hslow. rewrite Hslow. fold w1.
  destruct (submit_checks_world_frame (S (S (ticks w))) w)
    as (Henv1 & Hpool1 & _ & _ & Hat1 & Hss1 & Hticks1).
  fold w1 in Henv1, Hpool1, Hat1, Hss1, Hticks1.
  destruct (mark_verified_frame token record w1)
    as (Henv2 & Hticks2 & Hpool2 & _ & Hat2 & Hss2 & Hct2).
  destruct (store_phase_accepted req siteKey payload (mark_verified token record w1))
    as (w' & Hrun' & Hct' & Hat' & Hss').
  { unfold now_of. rewrite Henv2, Hticks2, Henv1, Hticks1.
    rewrite (storage_accepts_frame _ (after_query w)) by reflexivity. exact Hacc. }
  exists w'. unfold now_of in Hrun', Hss'.
  rewrite Henv2, Hticks2, Henv1, Hticks1 in Hrun', Hss'.
  split; [exact Hrun' |]. split; [now rewrite Hct' |].
  split; [now rewrite Hat', Hat2, Hat1 |].
  rewrite Hss', Hss2, Hss1. unfold persisted. now rewrite Hpool2, Hpool1.
Qed.

End SubmitTokenChecks.

(** C4. Past the field and honeypot checks, the site lookup and the origin
    check, [/v1/submit] treats the two kinds of token differently.  With
    an [accessToken] the answer is decided by the existence of the
    record, its site key and its age alone, and does not depend on
    [MIN_SUBMIT_DELAY_MS].  With a raw [token] whose record exists, is
    bound to the site key and has not expired, the request is rejected
    with 429 [submit_too_fast] when the second clock reading is less than
    [minSubmitDelayMs] after [issuedAt], leaving the records as they were;
    otherwise the record is marked verified and the entry goes to the
    store, and when the store takes it the answer is the event id.  The
    identical request, sent again after a [submit_too_fast] rejection
    once the delay has passed and before expiry, is accepted. *)
Theorem submit_redeems_by_token_kind
  (url_hostname : string -> option string) (cfg : Config)
  (req : SubmitRequest) (w : World) (siteKey : string) (payload : json) :
  sr_payload req = Some payload ->
  sr_siteKey req = Some siteKey -> siteKey <> EmptyString ->
  truthy (sr_honeypot req) = false ->
  next_query_fails w = false ->
  bool_decide (is_Some (site_of siteKey w))
  && negb (isOriginAllowed url_hostname (site_of siteKey w) (sr_origin req)) = false ->
  (forall accessToken,
      sr_accessToken req = Some accessToken -> accessToken <> EmptyString ->
      post_submit url_hostname cfg req w
      = match accessTokens w !! accessToken with
        | None => (Return (RespError 401 invalid_access_token), after_query w)
        | Some accessRecord =>
            if negb (bool_decide (acc_siteKey accessRecord = siteKey))
            then (Return (RespError 401 invalid_access_token), after_query w)
            else if now_of w - acc_issuedAt accessRecord >? tokenTtlMs cfg
            then (Return (RespError 401 access_token_expired),
                  set_ticks (S (ticks w)) (after_query w))
            else store_phase req siteKey payload
                             (set_ticks (S (ticks w)) (after_query w))
        end
      /\ forall delay,
          post_submit url_hostname
                      (mkConfig (tokenTtlMs cfg) delay (adminApiKey cfg)) req w
          = post_submit url_hostname cfg req w)
  /\ (forall token record,
        truthy (sr_accessToken req) = false ->
        sr_token req = Some token -> token <> EmptyString ->
        challengeTokens w !! token = Some record ->
        chl_siteKey record = siteKey ->
        now_of w - chl_issuedAt record <= tokenTtlMs cfg ->
        let elapsed := clock (env w) (S (ticks w)) - chl_issuedAt record in
        let w1 := set_ticks (S (S (ticks w))) (after_query w) in
        let eventId := "evt_" +:+ render (clock (env w) (S (S (ticks w)))) in
        let entry := mkSubmission eventId siteKey payload (sr_fingerprint req)
                                  (sr_ip req) (sr_ua req) (sr_origin req) in
        (elapsed < minSubmitDelayMs cfg ->
         post_submit url_hostname cfg req w
         = (Return (RespError 429 submit_too_fast), w1)
         /\ challengeTokens w1 = challengeTokens w
         /\ stored_submissions w1 = stored_submissions w)
        /\ (minSubmitDelayMs cfg <= elapsed ->
            storage_accepts eventId (after_query w) = true ->
            exists w',
              post_submit url_hostname cfg req w = (Return (RespSubmit eventId), w')
              /\ challengeTokens w' !! token
                 = Some (mkChallenge (chl_siteKey record) (chl_issuedAt record) true)
              /\ stored_submissions w' = stored_submissions w ++ [persisted entry w])
        /\ (elapsed < minSubmitDelayMs cfg ->
            next_query_fails w1 = false ->
            now_of w1 - chl_issuedAt record <= tokenTtlMs cfg ->
            minSubmitDelayMs cfg <= clock (env w) (S (S (S (ticks w)))) - chl_issuedAt record ->
            storage_accepts ("evt_" +:+ render (clock (env w) (S (S (S (S (ticks w)))))))
                            (after_query w1) = true ->
            exists w',
              post_submit url_hostname cfg req w1
              = (Return (RespSubmit
                           ("evt_" +:+ render (clock (env w) (S (S (S (S (ticks w)))))))),
                 w')
              /\ challengeTokens w' !! token
                 = Some (mkChallenge (chl_siteKey record) (chl_issuedAt record) true))).
Proof.
  intros Hp Hs Hs' Hh Hq Ho. split.
  - intros accessToken Ha Ha'. split.
    + now apply (post_submit_access_run url_hostname cfg req siteKey payload).
    + intros delay.
      rewrite (post_submit_access_run url_hostname cfg req siteKey payload Hp Hs Hs' Hh
                 cfg w accessToken) by (assumption || reflexivity).
      now apply (post_submit_access_run url_hostname cfg req siteKey payload).
  - intros token record Hta Htk Htk' Hr Hk Hel elapsed w1 eventId entry.
    destruct (submit_checks_world_frame (S (S (ticks w))) w)
      as (Henv1 & Hpool1 & Hsites1 & Hct1 & Hat1 & Hss1 & Hticks1).
    fold w1 in Henv1, Hpool1, Hsites1, Hct1, Hat1, Hss1, Hticks1.
    split; [| split].
    + intros Hfast.
      rewrite (post_submit_token_run url_hostname cfg req siteKey payload Hp Hs Hs' Hh
                 w token record) by assumption.
      fold elapsed. apply Z.ltb_lt in Hfast. rewrite Hfast. fold w1. auto.
    + intros Hslow Hacc.
      destruct (post_submit_token_accepted url_hostname cfg req siteKey payload
                  Hp Hs Hs' Hh w token record) as (w' & Hrun & Hct & _ & Hss);
        try assumption.
      exists w'. auto.
    + intros Hfast Hq1 Hel1 Hslow Hacc.
      assert (challengeTokens w1 !! token = Some record) as Hr1 by now rewrite Hct1.
      assert (origin_passes url_hostname req siteKey w1) as Ho1
        by (unfold origin_passes;
            rewrite (site_of_frame siteKey w w1 Hpool1 Hsites1); exact Ho).
      destruct (post_submit_token_accepted url_hostname cfg req siteKey payload
                  Hp Hs Hs' Hh w1 token record) as (w' & Hrun & Hct & _ & _);
        try assumption.
      * now rewrite Henv1, Hticks1.
      * now rewrite Henv1, Hticks1.
      * rewrite Henv1, Hticks1 in Hrun. exists w'. auto.
Qed.

(** ** Challenges and unregistered site keys *)

Lemma issued_world_frame (siteKey : string) (w : World) :
  let w1 := issued_world siteKey w in
  env w1 = env w /\ ticks w1 = S (S (ticks w)) /\ db_calls w1 = db_calls w
  /\ pool w1 = pool w /\ sites w1 = sites w /\ submissions w1 = submissions w
  /\ accessTokens w1 = accessTokens w
  /\ challengeTokens w1 !! ("tok_" +:+ randomBytesHex (env w) (rb_calls w))
     = Some (mkChallenge siteKey (clock (env w) (S (ticks w))) false).
Proof.
  unfold issued_world, challengeTokens_set. simpl.
  repeat split; try reflexivity. apply lookup_insert_eq.
Qed.

Lemma token_nonempty (hex : string) : "tok_" +:+ hex <> EmptyString.
Proof. discriminate. Qed.

(** C9. A challenge is issued for any non-empty site key without a look
    at the registry: the answer depends on the clock and the random bytes
    only, no query is sent, and the token is recorded bound to the site
    key as given.  When no site is registered under that key, a following
    [/v1/submit] with that token and key, whatever its origin, is accepted
    and stored as soon as the token checks and the store allow it. *)
Theorem challenge_never_consults_registry
  (url_hostname : string -> option string) (cfg : Config)
  (creq : ChallengeRequest) (w : World) (siteKey : string) :
  cr_siteKey creq = Some siteKey -> siteKey <> EmptyString ->
  let token := "tok_" +:+ randomBytesHex (env w) (rb_calls w) in
  let issuedAt := clock (env w) (S (ticks w)) in
  let w1 := issued_world siteKey w in
  post_challenge creq w
  = (Return (RespChallenge ("chl_" +:+ render (now_of w)) token), w1)
  /\ challengeTokens w1 !! token = Some (mkChallenge siteKey issuedAt false)
  /\ db_calls w1 = db_calls w
  /\ (forall x, env x = env w -> ticks x = ticks w -> rb_calls x = rb_calls w ->
                fst (post_challenge creq x) = fst (post_challenge creq w))
  /\ (forall sreq payload,
        site_of siteKey w = None ->
        sr_payload sreq = Some payload ->
        sr_siteKey sreq = Some siteKey ->
        sr_token sreq = Some token ->
        truthy (sr_accessToken sreq) = false ->
        truthy (sr_honeypot sreq) = false ->
        next_query_fails w1 = false ->
        clock (env w) (S (S (ticks w))) - issuedAt <= tokenTtlMs cfg ->
        minSubmitDelayMs cfg <= clock (env w) (S (S (S (ticks w)))) - issuedAt ->
        let eventId := "evt_" +:+ render (clock (env w) (S (S (S (S (ticks w)))))) in
        let entry := mkSubmission eventId siteKey payload (sr_fingerprint sreq)
                                  (sr_ip sreq) (sr_ua sreq) (sr_origin sreq) in
        storage_accepts eventId (after_query w1) = true ->
        exists w2,
          post_submit url_hostname cfg sreq w1 = (Return (RespSubmit eventId), w2)
          /\ stored_submissions w2 = stored_submissions w ++ [persisted entry w]).
Proof.
  intros Hs Hs' token issuedAt w1.
  destruct (issued_world_frame siteKey w)
    as (Henv & Hticks & Hdb & Hpool & Hsites & Hsub & _ & Hct).
  fold w1 in Henv, Hticks, Hdb, Hpool, Hsites, Hsub, Hct. fold token in Hct.
  split; [now apply post_challenge_run |].
  split; [exact Hct |]. split; [exact Hdb |]. split.
  - intros x Hex Htx Hrx.
    rewrite !(post_challenge_run creq _ siteKey) by assumption.
    unfold now_of. simpl. now rewrite Hex, Htx, Hrx.
  - intros sreq payload Hnone Hp Hsk Htk Hta Hh Hq Hel Hslow eventId entry Hacc.
    destruct (post_submit_token_accepted url_hostname cfg sreq siteKey payload
                Hp Hsk Hs' Hh w1 token (mkChallenge siteKey issuedAt false))
      as (w2 & Hrun & _ & _ & Hss); try assumption.
    + apply token_nonempty.
    + unfold origin_passes. rewrite (site_of_frame siteKey w w1 Hpool Hsites), Hnone.
      reflexivity.
    + reflexivity.
    + exists w2. split; [exact Hrun |].
      rewrite Hss. unfold stored_submissions, persisted. now rewrite Hpool, Hsub.
Qed.

(** ** Storage failure and earlier rejections *)

Lemma store_phase_answers (req : SubmitRequest) (siteKey : string) (payload : json)
      (w : World) :
  (exists eventId, fst (store_phase req siteKey payload w) = Return (RespSubmit eventId))
  \/ fst (store_phase req siteKey payload w) = Return (RespError 500 storage_failed).
Proof.
  unfold store_phase. destruct (storage_accepts _ _); simpl; eauto.
Qed.

(** C10. On the raw-token path the record is marked verified before the
    entry goes to the store: when the token checks pass and the store
    refuses the entry, the answer is 500 [storage_failed], nothing has
    been stored, and the record is left with [verified = true].  A
    rejection before the store (missing fields, honeypot, origin, invalid,
    expired or too-fast token) leaves both token maps, the in-process
    submissions and the pool as they were. *)
Theorem submit_not_atomic_on_storage_failure
  (url_hostname : string -> option string) (cfg : Config)
  (req : SubmitRequest) (w : World) :
  (forall siteKey payload token record,
      sr_payload req = Some payload ->
      sr_siteKey req = Some siteKey -> siteKey <> EmptyString ->
      truthy (sr_honeypot req) = false ->
      truthy (sr_accessToken req) = false ->
      sr_token req = Some token -> token <> EmptyString ->
      next_query_fails w = false -> origin_passes url_hostname req siteKey w ->
      challengeTokens w !! token = Some record ->
      chl_siteKey record = siteKey ->
      now_of w - chl_issuedAt record <= tokenTtlMs cfg ->
      minSubmitDelayMs cfg <= clock (env w) (S (ticks w)) - chl_issuedAt record ->
      storage_accepts ("evt_" +:+ render (clock (env w) (S (S (ticks w)))))
                      (after_query w) = false ->
      exists w',
        post_submit url_hostname cfg req w = (Return (RespError 500 storage_failed), w')
        /\ challengeTokens w' !! token
           = Some (mkChallenge (chl_siteKey record) (chl_issuedAt record) true)
        /\ stored_submissions w' = stored_submissions w)
  /\ (forall status error w',
        post_submit url_hostname cfg req w = (Return (RespError status error), w') ->
        rejected_before_store error = true ->
        challengeTokens w' = challengeTokens w
        /\ accessTokens w' = accessTokens w
        /\ submissions w' = submissions w
        /\ pool w' = pool w).
Proof.
  split.
  - intros siteKey payload token record Hp Hs Hs' Hh Hta Htk Htk' Hq Ho Hr Hk Hel
           Hslow Hacc.
    rewrite (post_submit_token_run url_hostname cfg req siteKey payload Hp Hs Hs' Hh
               w token record) by assumption.
    apply Z.ltb_ge in Hslow. rewrite Hslow.
    set (w1 := set_ticks (S (S (ticks w))) (after_query w)).
    destruct (submit_checks_world_frame (S (S (ticks w))) w)
      as (Henv1 & Hpool1 & _ & _ & _ & Hss1 & Hticks1).
    fold w1 in Henv1, Hpool1, Hss1, Hticks1.
    destruct (mark_verified_frame token record w1)
      as (Henv2 & Hticks2 & Hpool2 & _ & _ & Hss2 & Hct2).
    rewrite store_phase_refused.
    + eexists. split; [reflexivity |]. split.
      * rewrite after_query_challengeTokens. exact Hct2.
      * rewrite after_query_stored_submissions.
        change (stored_submissions (mark_verified token record w1)
                = stored_submissions w).
        now rewrite Hss2, Hss1.
    + unfold now_of. rewrite Henv2, Hticks2, Henv1, Hticks1.
      rewrite (storage_accepts_frame _ (after_query w)) by reflexivity. exact Hacc.
  - intros status error w' Hrun Hrej.
    destruct (sr_payload req) as [payload|] eqn:Hp;
      [| rewrite post_submit_missing in Hrun by (now left);
         injection Hrun as _ _ <-; auto].
    destruct (truthy (sr_siteKey req)
              && (truthy (sr_token req) || truthy (sr_accessToken req))) eqn:Hf;
      [| rewrite post_submit_missing in Hrun by (now right);
         injection Hrun as _ _ <-; auto].
    apply andb_true_iff in Hf as [Hs Ht].
    destruct (truthy (sr_honeypot req)) eqn:Hh;
      [rewrite (post_submit_honeypot _ _ _ _ _ Hp Hs Ht Hh) in Hrun;
       injection Hrun as _ _ <-; auto |].
    apply truthy_Some in Hs as (siteKey & Hs & Hs').
    rewrite (post_submit_run _ _ _ _ _ _ Hp Hs Hs' Ht Hh) in Hrun.
    assert (forall n, challengeTokens (set_ticks n (after_query w)) = challengeTokens w
                      /\ accessTokens (set_ticks n (after_query w)) = accessTokens w
                      /\ submissions (set_ticks n (after_query w)) = submissions w
                      /\ pool (set_ticks n (after_query w)) = pool w) as Hframe
      by (intros n; simpl; autorewrite with world; auto).
    assert (challengeTokens (after_query w) = challengeTokens w
            /\ accessTokens (after_query w) = accessTokens w
            /\ submissions (after_query w) = submissions w
            /\ pool (after_query w) = pool w) as Hframe0
      by (autorewrite with world; auto).
    assert (forall x, store_phase req siteKey payload x
                      <> (Return (RespError status error), w')) as Hstore.
    { intros x Hx. apply (f_equal fst) in Hx. simpl in Hx.
      destruct (store_phase_answers req siteKey payload x) as [[eventId He] | He];
        rewrite He in Hx; [discriminate |].
      injection Hx as <- <-. discriminate. }
    unfold redeem_phase in Hrun.
    repeat (match type of Hrun with
            | context [if ?c then _ else _] => destruct c
            | context [match ?c with Some _ => _ | None => _ end] => destruct c
            end);
      try (now apply Hstore in Hrun);
      injection Hrun as _ _ <-; solve [apply Hframe0 | apply Hframe].
Qed.

(** ** Site creation *)

Lemma post_admin_sites_run (cfg : Config) (req : AdminSiteRequest) (w : World) :
  requireAdminKey cfg (ar_adminKey req) = true ->
  truthy (ar_name req) = true ->
  post_admin_sites cfg req w
  = match storeSite (new_site req w) (keys_drawn w) with
    | (Return _, w') => (Return (RespSite (new_site req w)), w')
    | (Throw _, w') => (Return (RespError 500 storage_failed), w')
    end.
Proof.
  intros Hk Hn. unfold post_admin_sites. rewrite Hk, Hn.
  unfold new_site, keys_drawn, now_of. cbn [negb]. unfold_monad.
  cbn [env mr_calls ticks set_ticks set_mr_calls].
  match goal with |- context [storeSite ?r ?x] => destruct (storeSite r x) as [[u|e] w1] end;
    reflexivity.
Qed.

Lemma post_admin_sites_created_inv (cfg : Config) (req : AdminSiteRequest)
      (w w' : World) (site : Site) :
  post_admin_sites cfg req w = (Return (RespSite site), w') ->
  site = new_site req w /\ storeSite site (keys_drawn w) = (Return tt, w').
Proof.
  intros H.
  destruct (requireAdminKey cfg (ar_adminKey req)) eqn:Hk;
    [| unfold post_admin_sites in H; rewrite Hk in H; discriminate].
  destruct (truthy (ar_name req)) eqn:Hn;
    [| unfold post_admin_sites in H; rewrite Hk, Hn in H; discriminate].
  rewrite (post_admin_sites_run cfg req w Hk Hn) in H.
  destruct (storeSite (new_site req w) (keys_drawn w)) as [[[]|e] w1] eqn:Hstore;
    [| discriminate].
  injection H as <- <-. auto.
Qed.

Lemma storeSite_run (record : Site) (w : World) :
  storeSite record w
  = match pool w with
    | None => (Return tt, set_sites (map_set (site_id record) record (sites w)) w)
    | Some db =>
        if dbFault (env w) (db_calls w) then (Throw DbError, after_query w)
        else match insert_site record db with
             | None => (Throw DbError, after_query w)
             | Some (_, db') => (Return tt, set_pool (Some db') (after_query w))
             end
    end.
Proof.
  unfold storeSite, after_query. destruct (pool w) as [db|]; [| reflexivity].
  unfold pool_query. destruct (dbFault (env w) (db_calls w)); [reflexivity |].
  destruct (insert_site record db) as [[[] db']|]; reflexivity.
Qed.

(** Storing a site draws nothing from the clock or the random sources
    and leaves the token maps alone. *)
Lemma storeSite_frame (record : Site) (w w' : World) (o : Outcome unit) :
  storeSite record w = (o, w') ->
  env w' = env w /\ ticks w' = ticks w /\ rb_calls w' = rb_calls w
  /\ mr_calls w' = mr_calls w /\ challengeTokens w' = challengeTokens w
  /\ accessTokens w' = accessTokens w.
Proof.
  rewrite storeSite_run. intros H.
  destruct (pool w) as [db|].
  - destruct (dbFault (env w) (db_calls w));
      [| destruct (insert_site record db) as [[[] db']|]];
      injection H as _ <-; simpl; autorewrite with world; repeat split; reflexivity.
  - injection H as _ <-. simpl. repeat split; reflexivity.
Qed.

(** C8 (the defect). The [siteKey] and the [secretKey] of a created site
    are the two next answers of [Math.random], behind their prefixes; the
    handler makes exactly two calls to [Math.random] and none to
    [crypto.randomBytes], the source that [generateToken] draws from. *)
Theorem site_keys_come_from_math_random
  (cfg : Config) (req : AdminSiteRequest) (w w' : World) (site : Site) :
  post_admin_sites cfg req w = (Return (RespSite site), w') ->
  site_siteKey site = "pk_" +:+ mathRandom36 (env w) (mr_calls w)
  /\ site_secretKey site = "sk_" +:+ mathRandom36 (env w) (S (mr_calls w))
  /\ mr_calls w' = S (S (mr_calls w))
  /\ rb_calls w' = rb_calls w.
Proof.
  intros H. apply post_admin_sites_created_inv in H as [-> Hstore].
  apply storeSite_frame in Hstore as (_ & _ & Hrb & Hmr & _ & _).
  rewrite Hrb, Hmr. repeat split; reflexivity.
Qed.

(** ** Round trip through the registry *)

Lemma find_map_set_fresh {V : Type} (P : V -> bool) (k : string) (v : V)
      (m : list (string * V)) :
  find P (map_values m) = None -> P v = true ->
  find P (map_values (map_set k v m)) = Some v.
Proof.
  intros Hnone Hv. induction m as [|[k' v'] m IH]; simpl in *.
  - now rewrite Hv.
  - destruct (P v') eqn:Hv'; [discriminate |].
    destruct (bool_decide (k' = k)); simpl.
    + now rewrite Hv.
    + rewrite Hv'. now apply IH.
Qed.




(** ** Event identifiers *)

Lemma persisted_eventId (entry : Submission) (w : World) :
  sub_eventId (persisted entry w) = sub_eventId entry.
Proof. unfold persisted. now destruct (pool w). Qed.

Lemma store_phase_accepted_inv (req : SubmitRequest) (siteKey : string) (payload : json)
      (x w' : World) (eventId : string) :
  store_phase req siteKey payload x = (Return (RespSubmit eventId), w') ->
  eventId = "evt_" +:+ render (now_of x)
  /\ env w' = env x /\ ticks w' = S (ticks x)
  /\ exists entry,
      sub_eventId entry = eventId
      /\ stored_submissions w' = stored_submissions x ++ [entry].
Proof.
  unfold store_phase. destruct (storage_accepts _ _); [| discriminate].
  intros H. injection H as <- <-.
  match goal with
  | |- context [stored ?e ?y] =>
      destruct (stored_frame e y) as (Henv & Hticks & _ & _ & Hss);
      rewrite Henv, Hticks, Hss
  end.
  repeat split; try reflexivity.
  eexists. split; [| reflexivity]. apply persisted_eventId.
Qed.

(** What an accepted submission tells: its event id is the rendering of
    the last clock reading of the request, and one element carrying it
    was added to the store. *)
Lemma post_submit_accepted_inv
  (url_hostname : string -> option string) (cfg : Config)
  (req : SubmitRequest) (w w' : World) (eventId : string) :
  post_submit url_hostname cfg req w = (Return (RespSubmit eventId), w') ->
  eventId = "evt_" +:+ render (clock (env w) (Nat.pred (ticks w')))
  /\ env w' = env w
  /\ exists entry,
      sub_eventId entry = eventId
      /\ stored_submissions w' = stored_submissions w ++ [entry].
Proof.
  intros Hrun.
  destruct (sr_payload req) as [payload|] eqn:Hp;
    [| rewrite post_submit_missing in Hrun by (now left); discriminate].
  destruct (truthy (sr_siteKey req)
            && (truthy (sr_token req) || truthy (sr_accessToken req))) eqn:Hf;
    [| rewrite post_submit_missing in Hrun by (now right); discriminate].
  apply andb_true_iff in Hf as [Hs Ht].
  destruct (truthy (sr_honeypot req)) eqn:Hh;
    [rewrite (post_submit_honeypot _ _ _ _ _ Hp Hs Ht Hh) in Hrun; discriminate |].
  apply truthy_Some in Hs as (siteKey & Hs & Hs').
  rewrite (post_submit_run _ _ _ _ _ _ Hp Hs Hs' Ht Hh) in Hrun.
  unfold redeem_phase in Hrun.
  repeat (match type of Hrun with
          | context [if ?c then _ else _] => destruct c
          | context [match ?c with Some _ => _ | None => _ end] => destruct c
          end);
    try discriminate;
    apply store_phase_accepted_inv in Hrun as (-> & Henv & Hticks & entry & He & Hss);
    rewrite Hticks, Henv; unfold now_of in *; simpl in *;
    autorewrite with world in *;
    (split; [reflexivity |]); (split; [reflexivity |]);
    exists entry; (split; [exact He |]); rewrite Hss;
    unfold stored_submissions; simpl; autorewrite with world; reflexivity.
Qed.

(** Readings of different milliseconds do give different event ids. *)
Lemma eventId_distinct_across_milliseconds (a b : Z) :
  a <> b -> "evt_" +:+ render a <> "evt_" +:+ render b.
Proof.
  intros Hab Heq. apply Hab.
  rewrite !append_cons in Heq. injection Heq as Heq.
  change (render a = render b) in Heq.
  unfold render in Heq. now apply (inj pretty) in Heq.
Qed.

(** C7 (the defect). The event id is the clock reading taken at the end
    of the request: two submissions accepted one after the other whose
    readings are the same millisecond get the same event id, and both are
    in the store. *)
Theorem eventId_shared_within_a_millisecond
  (url_hostname : string -> option string) (cfg : Config)
  (req1 req2 : SubmitRequest) (w w1 w2 : World) (e1 e2 : string) :
  post_submit url_hostname cfg req1 w = (Return (RespSubmit e1), w1) ->
  post_submit url_hostname cfg req2 w1 = (Return (RespSubmit e2), w2) ->
  clock (env w) (Nat.pred (ticks w1)) = clock (env w) (Nat.pred (ticks w2)) ->
  e1 = e2
  /\ exists s1 s2,
      stored_submissions w2 = stored_submissions w ++ [s1; s2]
      /\ sub_eventId s1 = e1 /\ sub_eventId s2 = e2.
Proof.
  intros H1 H2 Hclock.
  apply post_submit_accepted_inv in H1 as (He1 & Henv1 & s1 & Hs1 & Hss1).
  apply post_submit_accepted_inv in H2 as (He2 & Henv2 & s2 & Hs2 & Hss2).
  rewrite Henv1 in He2. split; [now rewrite He1, He2, Hclock |].
  exists s1, s2. rewrite Hss2, Hss1, <- app_assoc. auto.
Qed.

(** * The theorems at work on the example worlds *)

Lemma isOriginAllowed_exactly_witness :
  isOriginAllowed demo_url_hostname (Some demo_site) (Some "https://notdomain.com"%string)
  = false.
Proof.
  apply (proj2 (isOriginAllowed_exactly demo_url_hostname demo_site
                  (Some "https://notdomain.com"%string))
               "https://notdomain.com"%string "not"%string "domain.com"%string);
    try reflexivity; try discriminate.
  intros [|c [|d [|e [|f label]]]] H; cbv in H; discriminate H.
Defined.

Lemma token_expiry_is_strict_witness :
  fst (post_verify demo_url_hostname demo_config demo_verify_request
                   (boundary_world (tokenTtlMs demo_config)))
  <> Return (RespError 401 token_expired)
  /\ fst (post_submit demo_url_hostname demo_config (demo_submit_request None)
                      (boundary_world (tokenTtlMs demo_config)))
     <> Return (RespError 401 token_expired)
  /\ fst (post_submit demo_url_hostname demo_config demo_access_request
                      (boundary_world (tokenTtlMs demo_config)))
     <> Return (RespError 401 access_token_expired).
Proof.
  destruct (token_expiry_is_strict demo_url_hostname demo_config)
    as (_ & _ & Hverify & Hsubmit & Haccess).
  split; [| split].
  - apply (Hverify _ _ (mkChallenge "pk_abc" (1700000000000 - 300000) false));
      reflexivity.
  - apply (Hsubmit _ _ (mkChallenge "pk_abc" (1700000000000 - 300000) false));
      reflexivity.
  - apply (Haccess _ _ (mkAccess "pk_abc" (1700000000000 - 300000))); reflexivity.
Defined.

Lemma honeypot_rejected_before_everything_witness :
  post_submit demo_url_hostname demo_config (demo_submit_request (Some "x"%string))
              (challenged_world (demo_env ticking_clock) None)
  = (Return (RespError 400 honeypot_triggered),
     challenged_world (demo_env ticking_clock) None).
Proof.
  apply (honeypot_rejected_before_everything demo_url_hostname demo_config
           (demo_submit_request (Some "x"%string))
           (challenged_world (demo_env ticking_clock) None)
           (JObj [("a"%string, JNum 1)]) "x"%string);
    try reflexivity.
  discriminate.
Defined.

Lemma verify_succeeds_again_witness :
  exists accessToken' w'',
    post_verify demo_url_hostname demo_config demo_verify_request verified_once_world
    = (Return (RespVerify accessToken'), w'')
    /\ challengeTokens verified_once_world !! "tok_h0"%string
       = Some (mkChallenge "pk_abc" (ticking_clock 1) true).
Proof.
  apply (verify_succeeds_again demo_url_hostname demo_config demo_verify_request
           (challenged_world (demo_env ticking_clock) None) verified_once_world
           "acc_h1"%string (mkChallenge "pk_abc" (ticking_clock 1) false)).
  - reflexivity.
  - reflexivity.
  - reflexivity.
  - apply Z.leb_le. reflexivity.
Defined.

(** Closes a side condition that holds by computation. *)
Ltac settle :=
  first [reflexivity | discriminate | apply Z.leb_le; reflexivity
        | apply Z.ltb_lt; reflexivity].

Lemma submit_redeems_by_token_kind_witness :
  post_submit demo_url_hostname slow_config (demo_submit_request None)
              challenged_demo_world
  = (Return (RespError 429 submit_too_fast),
     set_ticks 4 (after_query challenged_demo_world))
  /\ exists w',
      post_submit demo_url_hostname slow_config (demo_submit_request None)
                  (set_ticks 4 (after_query challenged_demo_world))
      = (Return (RespSubmit ("evt_" +:+ render (ticking_clock 6))), w')
      /\ challengeTokens w' !! "tok_h0"%string
         = Some (mkChallenge "pk_abc" (ticking_clock 1) true).
Proof.
  destruct (submit_redeems_by_token_kind demo_url_hostname slow_config
              (demo_submit_request None) challenged_demo_world "pk_abc"%string
              (JObj [("a"%string, JNum 1)]))
    as [_ Hraw]; try settle.
  destruct (Hraw "tok_h0"%string (mkChallenge "pk_abc" (ticking_clock 1) false))
    as (Hfast & _ & Hagain); try settle.
  split.
  - destruct Hfast as (Hrun & _ & _); [settle | exact Hrun].
  - apply Hagain; settle.
Defined.

Lemma challenge_never_consults_registry_witness :
  post_challenge demo_challenge_request (fresh_world (demo_env ticking_clock) None)
  = (Return (RespChallenge ("chl_" +:+ render (ticking_clock 0)) "tok_h0"),
     issued_world "pk_abc" (fresh_world (demo_env ticking_clock) None))
  /\ site_of "pk_abc" (fresh_world (demo_env ticking_clock) None) = None
  /\ exists w2,
      post_submit demo_url_hostname demo_config (demo_submit_request None)
                  (issued_world "pk_abc" (fresh_world (demo_env ticking_clock) None))
      = (Return (RespSubmit ("evt_" +:+ render (ticking_clock 4))), w2)
      /\ map sub_siteKey (stored_submissions w2) = ["pk_abc"%string].
Proof.
  destruct (challenge_never_consults_registry demo_url_hostname demo_config
              demo_challenge_request (fresh_world (demo_env ticking_clock) None)
              "pk_abc"%string)
    as (Hissue & _ & _ & _ & Hsubmit); try settle.
  split; [exact Hissue |]. split; [reflexivity |].
  destruct (Hsubmit (demo_submit_request None) (JObj [("a"%string, JNum 1)]))
    as (w2 & Hrun & Hss); try settle.
  exists w2. split; [exact Hrun |]. rewrite Hss. reflexivity.
Defined.

Lemma submit_not_atomic_on_storage_failure_witness :
  (exists w',
      post_submit demo_url_hostname demo_config (demo_submit_request None)
                  challenged_failing_world
      = (Return (RespError 500 storage_failed), w')
      /\ challengeTokens challenged_failing_world !! "tok_h0"%string
         = Some (mkChallenge "pk_abc" (ticking_clock 1) false)
      /\ challengeTokens w' !! "tok_h0"%string
         = Some (mkChallenge "pk_abc" (ticking_clock 1) true)
      /\ stored_submissions w' = [])
  /\ challengeTokens
       (snd (post_submit demo_url_hostname demo_config
                         (demo_submit_request (Some "x"%string))
                         challenged_failing_world))
     = challengeTokens challenged_failing_world.
Proof.
  split.
  - destruct (proj1 (submit_not_atomic_on_storage_failure demo_url_hostname demo_config
                       (demo_submit_request None) challenged_failing_world)
                    "pk_abc"%string (JObj [("a"%string, JNum 1)]) "tok_h0"%string
                    (mkChallenge "pk_abc" (ticking_clock 1) false))
      as (w' & Hrun & Hct & Hss); try settle.
    exists w'. repeat split; [exact Hrun | exact Hct | exact Hss].
  - apply (proj2 (submit_not_atomic_on_storage_failure demo_url_hostname demo_config
                    (demo_submit_request (Some "x"%string)) challenged_failing_world)
                 400 honeypot_triggered); reflexivity.
Defined.



Lemma eventId_shared_within_a_millisecond_witness :
  exists s1 s2,
    stored_submissions
      (snd (post_submit demo_url_hostname demo_config (demo_submit_request None)
              (snd (post_submit demo_url_hostname demo_config (demo_submit_request None)
                                challenged_frozen_world))))
    = [s1; s2]
    /\ sub_eventId s1 = "evt_1700000000000"%string
    /\ sub_eventId s2 = "evt_1700000000000"%string.
Proof.
  destruct (eventId_shared_within_a_millisecond demo_url_hostname demo_config
              (demo_submit_request None) (demo_submit_request None)
              challenged_frozen_world
              (snd (post_submit demo_url_hostname demo_config (demo_submit_request None)
                                challenged_frozen_world))
              (snd (post_submit demo_url_hostname demo_config (demo_submit_request None)
                      (snd (post_submit demo_url_hostname demo_config
                                        (demo_submit_request None)
                                        challenged_frozen_world))))
              "evt_1700000000000"%string "evt_1700000000000"%string)
    as (_ & s1 & s2 & Hss & H1 & H2); try (vm_compute; reflexivity).
  exists s1, s2. split; [exact Hss | split; [exact H1 | exact H2]].
Defined.

Lemma site_keys_come_from_math_random_witness :
  site_siteKey (new_site (demo_admin_request [])
                         (fresh_world (demo_env ticking_clock) None))
  = "pk_r0"%string
  /\ mr_calls (snd (post_admin_sites demo_config (demo_admin_request [])
                                     (fresh_world (demo_env ticking_clock) None)))
     = 2%nat
  /\ rb_calls (snd (post_admin_sites demo_config (demo_admin_request [])
                                     (fresh_world (demo_env ticking_clock) None)))
     = 0%nat.
Proof.
  destruct (site_keys_come_from_math_random demo_config (demo_admin_request [])
              (fresh_world (demo_env ticking_clock) None)
              (snd (post_admin_sites demo_config (demo_admin_request [])
                                     (fresh_world (demo_env ticking_clock) None)))
              (new_site (demo_admin_request [])
                        (fresh_world (demo_env ticking_clock) None)))
    as (Hk & _ & Hmr & Hrb); [reflexivity |].
  split; [rewrite Hk; reflexivity | split; [exact Hmr | exact Hrb]].
Defined.

(** * Further properties of the handlers *)

(** ** Every handler is a sequence of elementary effects *)

Lemma store_phase_effects (req : SubmitRequest) (siteKey : string) (payload : json)
      (w : World) :
  rtc effect w (snd (store_phase req siteKey payload w)).
Proof.
  unfold store_phase.
  destruct (storage_accepts _ (set_ticks (S (ticks w)) w)) eqn:Hacc; simpl.
  - eapply rtc_r; [| apply effect_store_submission; exact Hacc].
    apply rtc_once, effect_tick.
  - eapply rtc_r; [| apply effect_query]. apply rtc_once, effect_tick.
Qed.

Lemma post_challenge_effects (req : ChallengeRequest) (w : World) :
  rtc effect w (snd (post_challenge req w)).
Proof.
  destruct (truthy (cr_siteKey req)) eqn:Hs.
  - apply truthy_Some in Hs as (siteKey & Hs & Hs').
    rewrite (post_challenge_run req w siteKey Hs Hs'). simpl. unfold issued_world.
    eapply rtc_r; [| apply effect_issue].
    eapply rtc_r; [| apply effect_tick].
    eapply rtc_r; [| apply effect_random_bytes].
    apply rtc_once, effect_tick.
  - unfold post_challenge. rewrite Hs. apply rtc_refl.
Qed.

Lemma post_verify_effects (url_hostname : string -> option string) (cfg : Config)
      (req : VerifyRequest) (w : World) :
  rtc effect w (snd (post_verify url_hostname cfg req w)).
Proof.
  destruct (truthy (vr_siteKey req) && truthy (vr_token req)) eqn:Hf;
    [| rewrite post_verify_missing by exact Hf; apply rtc_refl].
  apply andb_true_iff in Hf as [Hs Ht].
  apply truthy_Some in Hs as (siteKey & Hs & Hs').
  apply truthy_Some in Ht as (token & Ht & Ht').
  rewrite (post_verify_run _ _ _ _ _ _ Hs Hs' Ht Ht').
  destruct (next_query_fails w); [apply rtc_once, effect_query |].
  destruct (bool_decide _ && _); [apply rtc_once, effect_query |].
  destruct (challengeTokens w !! token) as [record|] eqn:Hr;
    [| apply rtc_once, effect_query].
  destruct (negb _); [apply rtc_once, effect_query |].
  destruct (_ >? _); simpl.
  - eapply rtc_r; [| apply effect_tick]. apply rtc_once, effect_query.
  - unfold verified_world.
    eapply rtc_r; [| apply effect_grant].
    eapply rtc_r; [| apply effect_tick].
    eapply rtc_r; [| apply effect_random_bytes].
    eapply rtc_r; [| apply effect_mark; simpl; rewrite after_query_challengeTokens;
                     exact Hr].
    eapply rtc_r; [| apply effect_tick]. apply rtc_once, effect_query.
Qed.

Lemma post_submit_effects (url_hostname : string -> option string) (cfg : Config)
      (req : SubmitRequest) (w : World) :
  rtc effect w (snd (post_submit url_hostname cfg req w)).
Proof.
  destruct (sr_payload req) as [payload|] eqn:Hp;
    [| rewrite post_submit_missing by (now left); apply rtc_refl].
  destruct (truthy (sr_siteKey req)
            && (truthy (sr_token req) || truthy (sr_accessToken req))) eqn:Hf;
    [| rewrite post_submit_missing by (now right); apply rtc_refl].
  apply andb_true_iff in Hf as [Hs Ht].
  destruct (truthy (sr_honeypot req)) eqn:Hh;
    [rewrite (post_submit_honeypot _ _ _ _ _ Hp Hs Ht Hh); apply rtc_refl |].
  apply truthy_Some in Hs as (siteKey & Hs & Hs').
  rewrite (post_submit_run _ _ _ _ _ _ Hp Hs Hs' Ht Hh).
  destruct (next_query_fails w); [apply rtc_once, effect_query |].
  destruct (bool_decide _ && _); [apply rtc_once, effect_query |].
  assert (forall n, rtc effect w (set_ticks n (after_query w))) as Htick
    by (intros n; eapply rtc_r; [apply rtc_once, effect_query | apply effect_tick]).
  unfold redeem_phase. destruct (truthy (sr_accessToken req)).
  - destruct (accessTokens w !! _) as [accessRecord|]; [| apply rtc_once, effect_query].
    destruct (negb _); [apply rtc_once, effect_query |].
    destruct (_ >? _); [apply Htick |].
    eapply rtc_trans; [apply Htick | apply store_phase_effects].
  - destruct (challengeTokens w !! _) as [record|] eqn:Hr; [| apply rtc_once, effect_query].
    destruct (negb _); [apply rtc_once, effect_query |].
    destruct (_ >? _); [apply Htick |].
    destruct (_ <? _); [apply Htick |].
    eapply rtc_trans; [| apply store_phase_effects].
    eapply rtc_r; [apply Htick |].
    apply effect_mark. simpl. rewrite after_query_challengeTokens. exact Hr.
Qed.

Lemma post_admin_sites_effects (cfg : Config) (req : AdminSiteRequest) (w : World) :
  rtc effect w (snd (post_admin_sites cfg req w)).
Proof.
  destruct (requireAdminKey cfg (ar_adminKey req)) eqn:Hk;
    [| unfold post_admin_sites; rewrite Hk; apply rtc_refl].
  destruct (truthy (ar_name req)) eqn:Hn;
    [| unfold post_admin_sites; rewrite Hk, Hn; apply rtc_refl].
  rewrite (post_admin_sites_run cfg req w Hk Hn).
  assert (rtc effect w (keys_drawn w)) as Hdrawn.
  { unfold keys_drawn.
    eapply rtc_r; [| apply effect_math_random].
    eapply rtc_r; [| apply effect_math_random].
    apply rtc_once, effect_tick. }
  destruct (storeSite (new_site req w) (keys_drawn w)) as [[[]|e] w'] eqn:Hstore; simpl.
  - eapply rtc_r; [exact Hdrawn | eapply effect_store_site; exact Hstore].
  - rewrite storeSite_run in Hstore.
    destruct (pool (keys_drawn w)) as [db|]; [| discriminate].
    destruct (dbFault _ _);
      [| destruct (insert_site _ db) as [[[] db']|]; [discriminate |]];
      injection Hstore as _ <-; (eapply rtc_r; [exact Hdrawn | apply effect_query]).
Qed.

Lemma post_verify_server_run (req : VerifyServerRequest) (w : World) (siteKey : string) :
  vs_siteKey req = Some siteKey -> siteKey <> EmptyString ->
  truthy (vs_token req) = true ->
  truthy (or_else (vs_secretKey req) (vs_headerSecret req)) = true ->
  post_verify_server req w
  = if next_query_fails w
    then (Return (ServerRespError 500 server_verification_failed), after_query w)
    else match site_of siteKey w with
         | None => (Return (ServerRespError 401 server_invalid_secret), after_query w)
         | Some site =>
             if negb (bool_decide
                        (site_secretKey site
                         = str (or_else (vs_secretKey req) (vs_headerSecret req))))
             then (Return (ServerRespError 401 server_invalid_secret), after_query w)
             else (Return ServerRespOk, after_query w)
         end.
Proof.
  intros Hs Hs' Ht Hp. unfold post_verify_server. rewrite Hs, Ht, Hp.
  assert (truthy (Some siteKey) = true) as -> by (apply truthy_Some; eauto).
  simpl. unfold_monad. rewrite findSiteBySiteKey_run by exact Hs'.
  destruct (next_query_fails w); [reflexivity |].
  destruct (site_of siteKey w) as [site|]; [| reflexivity].
  now destruct (negb _).
Qed.

Lemma post_verify_server_missing (req : VerifyServerRequest) (w : World) :
  truthy (vs_siteKey req) && truthy (vs_token req)
  && truthy (or_else (vs_secretKey req) (vs_headerSecret req)) = false ->
  post_verify_server req w = (Return (ServerRespError 400 server_missing_fields), w).
Proof.
  intros H. unfold post_verify_server. rewrite <- !negb_andb, H. reflexivity.
Qed.

(** Server-side verification sends at most the site lookup. *)
Lemma post_verify_server_world (req : VerifyServerRequest) (w : World) :
  snd (post_verify_server req w) = w \/ snd (post_verify_server req w) = after_query w.
Proof.
  destruct (truthy (vs_siteKey req) && truthy (vs_token req)
            && truthy (or_else (vs_secretKey req) (vs_headerSecret req))) eqn:Hf;
    [| rewrite post_verify_server_missing by exact Hf; now left].
  apply andb_true_iff in Hf as [Hf Hp]. apply andb_true_iff in Hf as [Hs Ht].
  apply truthy_Some in Hs as (siteKey & Hs & Hs').
  rewrite (post_verify_server_run req w siteKey Hs Hs' Ht Hp). right.
  destruct (next_query_fails w); [reflexivity |].
  destruct (site_of siteKey w) as [site|]; [| reflexivity].
  now destruct (negb _).
Qed.

Lemma serve_effects (url_hostname : string -> option string) (cfg : Config)
      (request : Request) (w : World) :
  rtc effect w (serve url_hostname cfg request w).
Proof.
  destruct request as [req|req|req|req|req]; simpl.
  - apply post_challenge_effects.
  - apply post_verify_effects.
  - destruct (post_verify_server_world req w) as [-> | ->];
      [apply rtc_refl | apply rtc_once, effect_query].
  - apply post_submit_effects.
  - apply post_admin_sites_effects.
Qed.

Lemma serve_all_effects (url_hostname : string -> option string) (cfg : Config)
      (requests : list Request) (w : World) :
  rtc effect w (serve_all url_hostname cfg requests w).
Proof.
  unfold serve_all. revert w.
  induction requests as [|request requests IH]; intros w; simpl.
  - apply rtc_refl.
  - eapply rtc_trans; [apply serve_effects | apply IH].
Qed.

(** An invariant of the elementary effects is an invariant of the server. *)
Lemma invariant_of_effects (P : World -> Prop) :
  (forall w w', effect w w' -> P w -> P w') ->
  forall url_hostname cfg requests w,
    P w -> P (serve_all url_hostname cfg requests w).
Proof.
  intros Hstep url_hostname cfg requests w Hw.
  induction (serve_all_effects url_hostname cfg requests w) as [|x y z Hxy _ IH];
    [exact Hw |].
  apply IH. exact (Hstep x y Hxy Hw).
Qed.

(** ** The keys of the pool's tables *)

Lemma not_in_map_of_existsb {A : Type} (f : A -> string) (v : string) (l : list A) :
  existsb (fun y => bool_decide (f y = v)) l = false -> v ∉ map f l.
Proof.
  induction l as [|y l IH]; simpl; intros H.
  - apply not_elem_of_nil.
  - apply orb_false_iff in H as [Hy Hl]. apply bool_decide_eq_false in Hy.
    apply not_elem_of_cons. split; [congruence | now apply IH].
Qed.

Lemma NoDup_map_snoc {A : Type} (f : A -> string) (l : list A) (x : A) :
  NoDup (map f l) -> f x ∉ map f l -> NoDup (map f (l ++ [x])).
Proof.
  intros Hl Hx. rewrite map_app. simpl. apply NoDup_app. split; [exact Hl |].
  split; [| apply NoDup_singleton].
  intros y Hy Hy'. apply list_elem_of_singleton in Hy'. subst y. contradiction.
Qed.

Lemma existsb_or_false {A : Type} (p q : A -> bool) (l : list A) :
  existsb (fun y => p y || q y) l = false ->
  existsb p l = false /\ existsb q l = false.
Proof.
  induction l as [|y l IH]; simpl; [auto |]. intros H.
  apply orb_false_iff in H as [Hy Hl]. apply orb_false_iff in Hy as [Hp Hq].
  destruct (IH Hl) as [-> ->]. now rewrite Hp, Hq.
Qed.

Lemma effect_keeps_tables_keyed (w w' : World) :
  effect w w' -> tables_keyed w -> tables_keyed w'.
Proof.
  intros Heff Hw. unfold tables_keyed in *.
  destruct Heff as [w|w n|w n|w n|w hex record|w token record Hr|w hex record
                    |w entry Hacc|w record w' Hstore];
    try exact Hw.
  - now rewrite after_query_pool.
  - unfold stored, storage_accepts in *.
    destruct (pool w) as [db|] eqn:Hp; simpl; [| now rewrite Hp].
    destruct Hw as (Hid & Hkey & Hev). apply andb_true_iff in Hacc as [_ Hacc].
    apply negb_true_iff in Hacc.
    repeat split; try assumption.
    apply NoDup_map_snoc; [exact Hev |].
    now apply (not_in_map_of_existsb sub_eventId (sub_eventId entry)).
  - rewrite storeSite_run in Hstore. destruct (pool w) as [db|] eqn:Hp.
    + destruct (dbFault _ _); [discriminate |].
      unfold insert_site in Hstore.
      destruct (existsb _ (db_sites db)) eqn:Hdup; [discriminate |].
      injection Hstore as <-. simpl.
      destruct Hw as (Hid & Hkey & Hev).
      apply existsb_or_false in Hdup as [Hdid Hdkey].
      repeat split; try assumption.
      * apply NoDup_map_snoc; [exact Hid |].
        now apply (not_in_map_of_existsb site_id (site_id record)).
      * apply NoDup_map_snoc; [exact Hkey |].
        now apply (not_in_map_of_existsb site_siteKey (site_siteKey record)).
    + injection Hstore as <-. simpl. now rewrite Hp.
Qed.

(** X1. Under the pool the tables keep their keys: starting from tables
    in which no two sites share an [id] or a [site_key] and no two
    submissions share an [event_id], no sequence of requests to the five
    routes leads to tables in which two rows do. *)
Theorem tables_stay_keyed
  (url_hostname : string -> option string) (cfg : Config)
  (requests : list Request) (w : World) :
  tables_keyed w -> tables_keyed (serve_all url_hostname cfg requests w).
Proof.
  apply (invariant_of_effects tables_keyed). exact effect_keeps_tables_keyed.
Qed.

(** ** The token maps *)

Lemma effect_keeps_tokens_prefixed (w w' : World) :
  effect w w' -> tokens_prefixed w -> tokens_prefixed w'.
Proof.
  intros Heff [Hc Ha]. unfold tokens_prefixed.
  destruct Heff as [w|w n|w n|w n|w hex record|w token record Hr|w hex record
                    |w entry Hacc|w record w' Hstore];
    try (split; assumption).
  - now rewrite after_query_challengeTokens, after_query_accessTokens.
  - split; [| exact Ha]. intros token. simpl.
    rewrite lookup_insert_is_Some. intros [<- | [_ H]]; eauto.
  - split; [| exact Ha]. intros token'. simpl.
    rewrite lookup_insert_is_Some. intros [<- | [_ H]]; [| eauto].
    apply Hc. rewrite Hr. eauto.
  - split; [exact Hc |]. intros accessToken. simpl.
    rewrite lookup_insert_is_Some. intros [<- | [_ H]]; eauto.
  - destruct (stored_frame entry w) as (_ & _ & -> & -> & _). now split.
  - apply storeSite_frame in Hstore as (_ & _ & _ & _ & -> & ->). now split.
Qed.

(** X2. The two token maps keep their keys apart: when every key of
    [challengeTokens] starts with [tok_] and every key of [accessTokens]
    with [acc_], the same holds after any sequence of requests. *)
Theorem tokens_stay_prefixed
  (url_hostname : string -> option string) (cfg : Config)
  (requests : list Request) (w : World) :
  tokens_prefixed w -> tokens_prefixed (serve_all url_hostname cfg requests w).
Proof.
  apply (invariant_of_effects tokens_prefixed). exact effect_keeps_tokens_prefixed.
Qed.

(** ** The backend *)

Lemma effect_keeps_backend (w w' : World) :
  effect w w' ->
  (pool w = None -> pool w' = None)
  /\ (forall db, pool w = Some db ->
                 is_Some (pool w') /\ sites w' = sites w
                 /\ submissions w' = submissions w).
Proof.
  intros Heff.
  destruct Heff as [w|w n|w n|w n|w hex record|w token record Hr|w hex record
                    |w entry Hacc|w record w' Hstore];
    try (split; [auto | intros db Hp; simpl; rewrite Hp; eauto]).
  - rewrite after_query_pool, after_query_sites, after_query_submissions.
    split; [auto | intros db ->; eauto].
  - unfold stored. split.
    + intros Hp. now rewrite Hp.
    + intros db Hp. rewrite Hp. simpl.
      rewrite after_query_sites, after_query_submissions. eauto.
  - rewrite storeSite_run in Hstore. split.
    + intros Hp. rewrite Hp in Hstore. injection Hstore as <-. exact Hp.
    + intros db Hp. rewrite Hp in Hstore.
      destruct (dbFault _ _); [discriminate |].
      destruct (insert_site record db) as [[[] db']|]; [| discriminate].
      injection Hstore as <-. simpl.
      rewrite after_query_sites, after_query_submissions. eauto.
Qed.

(** X3. The backend chosen at start is the backend for good: without a
    pool no sequence of requests brings one about, and with a pool the
    in-process [sites] map and [submissions] list are never written. *)
Theorem backend_is_fixed
  (url_hostname : string -> option string) (cfg : Config)
  (requests : list Request) (w : World) :
  (pool w = None -> pool (serve_all url_hostname cfg requests w) = None)
  /\ (is_Some (pool w) ->
      is_Some (pool (serve_all url_hostname cfg requests w))
      /\ sites (serve_all url_hostname cfg requests w) = sites w
      /\ submissions (serve_all url_hostname cfg requests w) = submissions w).
Proof.
  apply (invariant_of_effects
           (fun x => (pool w = None -> pool x = None)
                     /\ (is_Some (pool w) ->
                         is_Some (pool x) /\ sites x = sites w
                         /\ submissions x = submissions w))).
  - intros x y Heff [Hnone Hsome].
    destruct (effect_keeps_backend x y Heff) as [Hnone' Hsome']. split.
    + auto.
    + intros Hw. destruct (Hsome Hw) as ([db Hdb] & Hs & Hb).
      destruct (Hsome' db Hdb) as (Hp & Hs' & Hb').
      repeat split; [exact Hp | congruence | congruence].
  - split; [auto | intros Hw; auto].
Qed.

(** ** Server-side verification *)


(** X5. With its fields present and the site lookup answered,
    [/v1/verify-server] accepts exactly when a site is registered under
    the site key and its secret equals the secret provided: the
    [secretKey] of the body when that is non-empty, the [x-site-secret]
    header otherwise.  A non-empty body secret makes the header
    irrelevant, so a wrong body secret is not rescued by a right header. *)
Theorem verify_server_accepts_exactly
  (req : VerifyServerRequest) (w : World) (siteKey : string) :
  vs_siteKey req = Some siteKey -> siteKey <> EmptyString ->
  truthy (vs_token req) = true ->
  next_query_fails w = false ->
  (fst (post_verify_server req w) = Return ServerRespOk
   <-> exists site secret,
         site_of siteKey w = Some site
         /\ secret <> EmptyString
         /\ (vs_secretKey req = Some secret
             \/ (truthy (vs_secretKey req) = false /\ vs_headerSecret req = Some secret))
         /\ site_secretKey site = secret)
  /\ (truthy (vs_secretKey req) = true ->
      forall header,
        post_verify_server
          (mkVerifyServerRequest (vs_siteKey req) (vs_token req) (vs_secretKey req) header)
          w
        = post_verify_server req w).
Proof.
  intros Hs Hs' Ht Hq. split.
  - destruct (truthy (or_else (vs_secretKey req) (vs_headerSecret req))) eqn:Hp.
    + rewrite (post_verify_server_run req w siteKey Hs Hs' Ht Hp), Hq.
      apply truthy_Some in Hp as (secret & Hp & Hp'). rewrite Hp, str_Some.
      assert (vs_secretKey req = Some secret
              \/ (truthy (vs_secretKey req) = false /\ vs_headerSecret req = Some secret))
        as Hwhich.
      { unfold or_else in Hp. destruct (truthy (vs_secretKey req)); auto. }
      destruct (site_of siteKey w) as [site|]; simpl.
      * destruct (bool_decide (site_secretKey site = secret)) eqn:Hk; simpl.
        -- apply bool_decide_eq_true in Hk. split; [| reflexivity].
           intros _. exists site, secret. auto.
        -- apply bool_decide_eq_false in Hk. split; [discriminate |].
           intros (site' & secret' & [= <-] & Hne & Hw & Heq). exfalso. apply Hk.
           destruct Hwhich as [H1 | [H1 H2]], Hw as [H3 | [H3 H4]]; try congruence.
           ++ rewrite H1 in H3. apply truthy_false in H3 as [H3 | H3]; congruence.
           ++ rewrite H3 in H1. apply truthy_false in H1 as [H1 | H1]; congruence.
      * split; [discriminate | intros (site & _ & [=] & _)].
    + rewrite post_verify_server_missing by (rewrite Hp; apply andb_false_r).
      simpl. split; [discriminate |].
      intros (site & secret & _ & Hne & Hw & _). exfalso.
      unfold or_else in Hp. destruct Hw as [H | [H1 H2]].
      * assert (truthy (vs_secretKey req) = true) as Ht'
          by (apply truthy_Some; eauto).
        rewrite Ht' in Hp. congruence.
      * rewrite H1 in Hp. apply truthy_false in Hp as [Hp | Hp]; congruence.
  - intros Hb header. unfold post_verify_server, or_else. simpl. now rewrite Hb.
Qed.

(** ** The order of the checks *)

(** X6. A token that [challengeTokens] does not hold, or holds bound to
    another site key, is turned away with 401 [invalid_token] by
    [/v1/verify] and by [/v1/submit] alike, before any clock is read (so
    also when it has expired), and no record changes. *)
Theorem foreign_token_is_invalid
  (url_hostname : string -> option string) (cfg : Config)
  (w : World) (siteKey token : string) :
  siteKey <> EmptyString -> token <> EmptyString ->
  next_query_fails w = false ->
  (challengeTokens w !! token = None
   \/ exists record, challengeTokens w !! token = Some record
                     /\ chl_siteKey record <> siteKey) ->
  (forall req,
      vr_siteKey req = Some siteKey -> vr_token req = Some token ->
      bool_decide (is_Some (site_of siteKey w))
      && negb (isOriginAllowed url_hostname (site_of siteKey w) (vr_origin req)) = false ->
      post_verify url_hostname cfg req w
      = (Return (RespError 401 invalid_token), after_query w))
  /\ (forall req payload,
        sr_payload req = Some payload ->
        sr_siteKey req = Some siteKey -> sr_token req = Some token ->
        truthy (sr_accessToken req) = false ->
        truthy (sr_honeypot req) = false ->
        origin_passes url_hostname req siteKey w ->
        post_submit url_hostname cfg req w
        = (Return (RespError 401 invalid_token), after_query w)).
Proof.
  intros Hs' Ht' Hq Hforeign. split.
  - intros req Hs Ht Ho.
    rewrite (post_verify_run _ _ _ _ _ _ Hs Hs' Ht Ht'), Hq, Ho.
    destruct Hforeign as [-> | (record & -> & Hk)]; [reflexivity |].
    now rewrite bool_decide_eq_false_2 by exact Hk.
  - intros req payload Hp Hs Ht Hta Hh Ho.
    assert (truthy (sr_token req) || truthy (sr_accessToken req) = true) as Htt.
    { assert (truthy (sr_token req) = true) as -> by (apply truthy_Some; eauto).
      reflexivity. }
    rewrite (post_submit_run _ _ _ _ _ _ Hp Hs Hs' Htt Hh), Hq.
    unfold origin_passes in Ho. rewrite Ho.
    unfold redeem_phase. rewrite Hta, Ht, str_Some.
    destruct Hforeign as [-> | (record & -> & Hk)]; [reflexivity |].
    now rewrite bool_decide_eq_false_2 by exact Hk.
Qed.

(** X7. For a registered site whose domain list refuses the origin,
    [/v1/verify] and [/v1/submit] answer 403 [origin_not_allowed] whatever
    token is presented and whatever the token maps hold; nothing but the
    site lookup has happened. *)
Theorem origin_refusal_comes_before_tokens
  (url_hostname : string -> option string) (cfg : Config)
  (w : World) (siteKey : string) (site : Site) :
  siteKey <> EmptyString ->
  next_query_fails w = false ->
  site_of siteKey w = Some site ->
  (forall req,
      vr_siteKey req = Some siteKey -> truthy (vr_token req) = true ->
      isOriginAllowed url_hostname (Some site) (vr_origin req) = false ->
      post_verify url_hostname cfg req w
      = (Return (RespError 403 origin_not_allowed), after_query w))
  /\ (forall req payload,
        sr_payload req = Some payload ->
        sr_siteKey req = Some siteKey ->
        truthy (sr_token req) || truthy (sr_accessToken req) = true ->
        truthy (sr_honeypot req) = false ->
        isOriginAllowed url_hostname (Some site) (sr_origin req) = false ->
        post_submit url_hostname cfg req w
        = (Return (RespError 403 origin_not_allowed), after_query w)).
Proof.
  intros Hs' Hq Hsite. split.
  - intros req Hs Ht Ho. apply truthy_Some in Ht as (token & Ht & Ht').
    rewrite (post_verify_run _ _ _ _ _ _ Hs Hs' Ht Ht'), Hq, Hsite, Ho.
    rewrite bool_decide_eq_true_2 by eauto. reflexivity.
  - intros req payload Hp Hs Ht Hh Ho.
    rewrite (post_submit_run _ _ _ _ _ _ Hp Hs Hs' Ht Hh), Hq, Hsite, Ho.
    rewrite bool_decide_eq_true_2 by eauto. reflexivity.
Qed.

(** X8. When the database rejects the site lookup, [/v1/verify] and
    [/v1/verify-server] answer 500 [verification_failed] and [/v1/submit]
    answers 500 [storage_failed], for any token; the query was counted
    and nothing else happened. *)
Theorem rejected_lookup_is_a_500
  (url_hostname : string -> option string) (cfg : Config)
  (w : World) (siteKey : string) :
  siteKey <> EmptyString ->
  next_query_fails w = true ->
  (forall req,
      vr_siteKey req = Some siteKey -> truthy (vr_token req) = true ->
      post_verify url_hostname cfg req w
      = (Return (RespError 500 verification_failed), after_query w))
  /\ (forall req,
        vs_siteKey req = Some siteKey -> truthy (vs_token req) = true ->
        truthy (or_else (vs_secretKey req) (vs_headerSecret req)) = true ->
        post_verify_server req w
        = (Return (ServerRespError 500 server_verification_failed), after_query w))
  /\ (forall req payload,
        sr_payload req = Some payload ->
        sr_siteKey req = Some siteKey ->
        truthy (sr_token req) || truthy (sr_accessToken req) = true ->
        truthy (sr_honeypot req) = false ->
        post_submit url_hostname cfg req w
        = (Return (RespError 500 storage_failed), after_query w)).
Proof.
  intros Hs' Hq. split; [| split].
  - intros req Hs Ht. apply truthy_Some in Ht as (token & Ht & Ht').
    now rewrite (post_verify_run _ _ _ _ _ _ Hs Hs' Ht Ht'), Hq.
  - intros req Hs Ht Hp.
    now rewrite (post_verify_server_run req w siteKey Hs Hs' Ht Hp), Hq.
  - intros req payload Hp Hs Ht Hh.
    now rewrite (post_submit_run _ _ _ _ _ _ Hp Hs Hs' Ht Hh), Hq.
Qed.

(** ** Submission: every outcome *)

Tactic Notation "case_if_in" hyp(H) :=
  match type of H with
  | context [if ?c then _ else _] => destruct c
  end.

(** The worlds in which a handler stops before it writes anything. *)
Lemma early_world_frame (w w' : World) :
  w' = w \/ w' = after_query w \/ (exists n, w' = set_ticks n (after_query w)) ->
  env w' = env w /\ pool w' = pool w /\ sites w' = sites w
  /\ challengeTokens w' = challengeTokens w /\ accessTokens w' = accessTokens w
  /\ stored_submissions w' = stored_submissions w.
Proof.
  intros [-> | [-> | [n ->]]].
  - repeat split; reflexivity.
  - rewrite after_query_stored_submissions. autorewrite with world.
    repeat split; reflexivity.
  - change (stored_submissions (set_ticks n (after_query w)))
      with (stored_submissions (after_query w)).
    rewrite after_query_stored_submissions. simpl. autorewrite with world.
    repeat split; reflexivity.
Qed.

Lemma store_phase_inv (req : SubmitRequest) (siteKey : string) (payload : json)
      (x w' : World) (r : Outcome Response) :
  store_phase req siteKey payload x = (r, w') ->
  let eventId := "evt_" +:+ render (now_of x) in
  let entry := mkSubmission eventId siteKey payload (sr_fingerprint req)
                            (sr_ip req) (sr_ua req) (sr_origin req) in
  (r = Return (RespSubmit eventId)
   /\ storage_accepts eventId (set_ticks (S (ticks x)) x) = true
   /\ w' = stored entry (set_ticks (S (ticks x)) x))
  \/ (r = Return (RespError 500 storage_failed)
      /\ w' = after_query (set_ticks (S (ticks x)) x)).
Proof.
  intros H eventId entry. unfold store_phase in H.
  fold eventId in H. fold entry in H.
  destruct (storage_accepts eventId (set_ticks (S (ticks x)) x));
    injection H as <- <-; auto.
Qed.

(** Every outcome of the submit handler: an error before the store, or
    the store phase entered from one of two worlds. *)
Lemma post_submit_cases
  (url_hostname : string -> option string) (cfg : Config)
  (req : SubmitRequest) (w w' : World) (r : Outcome Response) :
  post_submit url_hostname cfg req w = (r, w') ->
  (exists status error,
      r = Return (RespError status error)
      /\ (w' = w \/ w' = after_query w \/ exists n, w' = set_ticks n (after_query w)))
  \/ (exists siteKey payload x,
        sr_siteKey req = Some siteKey /\ sr_payload req = Some payload
        /\ store_phase req siteKey payload x = (r, w')
        /\ (x = set_ticks (S (ticks w)) (after_query w)
            \/ exists token record,
                challengeTokens w !! token = Some record
                /\ x = mark_verified token record
                         (set_ticks (S (S (ticks w))) (after_query w)))).
Proof.
  intros Hrun.
  destruct (sr_payload req) as [payload|] eqn:Hp;
    [| rewrite post_submit_missing in Hrun by (now left);
       injection Hrun as <- <-; left; eauto 12].
  destruct (truthy (sr_siteKey req)
            && (truthy (sr_token req) || truthy (sr_accessToken req))) eqn:Hf;
    [| rewrite post_submit_missing in Hrun by (now right);
       injection Hrun as <- <-; left; eauto 12].
  apply andb_true_iff in Hf as [Hs Ht].
  destruct (truthy (sr_honeypot req)) eqn:Hh;
    [rewrite (post_submit_honeypot _ _ _ _ _ Hp Hs Ht Hh) in Hrun;
     injection Hrun as <- <-; left; eauto 12 |].
  apply truthy_Some in Hs as (siteKey & Hs & Hs').
  rewrite (post_submit_run _ _ _ _ _ _ Hp Hs Hs' Ht Hh) in Hrun.
  destruct (next_query_fails w); [injection Hrun as <- <-; left; eauto 12 |].
  case_if_in Hrun; [injection Hrun as <- <-; left; eauto 12 |].
  unfold redeem_phase in Hrun. destruct (truthy (sr_accessToken req)).
  - destruct (accessTokens w !! str (sr_accessToken req)) as [accessRecord|];
      [| injection Hrun as <- <-; left; eauto 12].
    case_if_in Hrun; [injection Hrun as <- <-; left; eauto 12 |].
    case_if_in Hrun; [injection Hrun as <- <-; left; eauto 12 |].
    right. exists siteKey, payload. eauto 12.
  - destruct (challengeTokens w !! str (sr_token req)) as [record|] eqn:Hr;
      [| injection Hrun as <- <-; left; eauto 12].
    case_if_in Hrun; [injection Hrun as <- <-; left; eauto 12 |].
    case_if_in Hrun; [injection Hrun as <- <-; left; eauto 12 |].
    case_if_in Hrun; [injection Hrun as <- <-; left; eauto 12 |].
    right. exists siteKey, payload. eauto 12.
Qed.

Lemma mark_verified_early_frame (token : string) (record : ChallengeRecord)
      (n : nat) (w : World) :
  let x := mark_verified token record (set_ticks n (after_query w)) in
  env x = env w /\ pool x = pool w /\ sites x = sites w
  /\ accessTokens x = accessTokens w
  /\ stored_submissions x = stored_submissions w.
Proof.
  unfold mark_verified, challengeTokens_set, stored_submissions. simpl.
  autorewrite with world. repeat split; reflexivity.
Qed.

(** X9. [/v1/submit] stores exactly when it answers with an event id.
    An error answer, the 500 of a refused insert included, leaves the
    stored submissions and the access tokens as they were; an accepted
    request adds one element, last, carrying the event id of the answer
    and the site key and payload of the request. *)
Theorem submit_stores_iff_accepted
  (url_hostname : string -> option string) (cfg : Config)
  (req : SubmitRequest) (w w' : World) :
  (forall status error,
      post_submit url_hostname cfg req w = (Return (RespError status error), w') ->
      stored_submissions w' = stored_submissions w
      /\ accessTokens w' = accessTokens w)
  /\ (forall eventId,
        post_submit url_hostname cfg req w = (Return (RespSubmit eventId), w') ->
        exists entry,
          stored_submissions w' = stored_submissions w ++ [entry]
          /\ sub_eventId entry = eventId
          /\ sr_siteKey req = Some (sub_siteKey entry)
          /\ sr_payload req = Some (sub_payload entry)
          /\ accessTokens w' = accessTokens w).
Proof.
  split.
  - intros status error Hrun.
    apply post_submit_cases in Hrun
      as [(s & e & _ & Hw) | (siteKey & payload & x & _ & _ & Hstore & Hx)].
    + apply early_world_frame in Hw as (_ & _ & _ & _ & Ha & Hss). auto.
    + apply store_phase_inv in Hstore as [(Hr & _) | (_ & ->)]; [discriminate |].
      rewrite after_query_stored_submissions, after_query_accessTokens.
      change (stored_submissions x = stored_submissions w
              /\ accessTokens x = accessTokens w).
      destruct Hx as [-> | (token & record & _ & ->)].
      * assert (exists n, set_ticks (S (ticks w)) (after_query w)
                          = set_ticks n (after_query w)) as Hn by eauto.
        apply (fun H => early_world_frame w _ (or_intror (or_intror H))) in Hn
          as (_ & _ & _ & _ & Ha & Hss). auto.
      * destruct (mark_verified_early_frame token record (S (S (ticks w))) w)
          as (_ & _ & _ & Ha & Hss). auto.
  - intros eventId Hrun.
    apply post_submit_cases in Hrun
      as [(s & e & Hr & _) | (siteKey & payload & x & Hs & Hp & Hstore & Hx)];
      [discriminate |].
    apply store_phase_inv in Hstore as [(Hr & _ & ->) | (Hr & _)]; [| discriminate].
    injection Hr as ->.
    match goal with
    | |- context [stored ?e ?y] =>
        destruct (stored_frame e y) as (_ & _ & _ & Ha & Hss);
        exists (persisted e y)
    end.
    rewrite Hss, Ha. unfold persisted.
    change (stored_submissions (set_ticks (S (ticks x)) x)) with (stored_submissions x).
    change (accessTokens (set_ticks (S (ticks x)) x)) with (accessTokens x).
    assert (stored_submissions x = stored_submissions w
            /\ accessTokens x = accessTokens w) as [-> ->].
    { destruct Hx as [-> | (token & record & _ & ->)].
      - assert (exists n, set_ticks (S (ticks w)) (after_query w)
                          = set_ticks n (after_query w)) as Hn by eauto.
        apply (fun H => early_world_frame w _ (or_intror (or_intror H))) in Hn
          as (_ & _ & _ & _ & Ha' & Hss'). auto.
      - destruct (mark_verified_early_frame token record (S (S (ticks w))) w)
          as (_ & _ & _ & Ha' & Hss'). auto. }
    split; [reflexivity |].
    destruct (pool (set_ticks (S (ticks x)) x)); simpl; auto.
Qed.

(** ** Submission with an access token *)

Lemma site_of_stored (siteKey : string) (entry : Submission) (w : World) :
  site_of siteKey (stored entry w) = site_of siteKey w.
Proof.
  unfold site_of, stored. destruct (pool w) as [db|] eqn:Hp; simpl.
  - reflexivity.
  - now rewrite Hp.
Qed.

Lemma site_of_after_query (siteKey : string) (w : World) :
  site_of siteKey (after_query w) = site_of siteKey w.
Proof. apply site_of_frame; [apply after_query_pool | apply after_query_sites]. Qed.

Lemma next_query_fails_frame (w w' : World) :
  env w' = env w -> db_calls w' = db_calls w ->
  (pool w' = None <-> pool w = None) ->
  next_query_fails w' = next_query_fails w.
Proof.
  unfold next_query_fails. intros -> -> Hp.
  destruct (pool w) as [db|], (pool w') as [db'|]; try reflexivity.
  - destruct Hp as [Hp _]. discriminate (Hp eq_refl).
  - destruct Hp as [_ Hp]. discriminate (Hp eq_refl).
Qed.

(** The accepted case of [post_submit_access_run]. *)
Lemma post_submit_access_accepted
  (url_hostname : string -> option string) (cfg : Config)
  (req : SubmitRequest) (siteKey : string) (payload : json)
  (w : World) (accessToken : string) (accessRecord : AccessRecord) :
  sr_payload req = Some payload ->
  sr_siteKey req = Some siteKey -> siteKey <> EmptyString ->
  truthy (sr_honeypot req) = false ->
  sr_accessToken req = Some accessToken -> accessToken <> EmptyString ->
  next_query_fails w = false -> origin_passes url_hostname req siteKey w ->
  accessTokens w !! accessToken = Some accessRecord ->
  acc_siteKey accessRecord = siteKey ->
  now_of w - acc_issuedAt accessRecord <= tokenTtlMs cfg ->
  let eventId := "evt_" +:+ render (clock (env w) (S (ticks w))) in
  let entry := mkSubmission eventId siteKey payload (sr_fingerprint req)
                            (sr_ip req) (sr_ua req) (sr_origin req) in
  storage_accepts eventId (after_query w) = true ->
  post_submit url_hostname cfg req w
  = (Return (RespSubmit eventId),
     stored entry (set_ticks (S (S (ticks w))) (after_query w))).
Proof.
  intros Hp Hs Hs' Hh Ha Ha' Hq Ho Hr Hk Hel eventId entry Hacc.
  rewrite (post_submit_access_run url_hostname cfg req siteKey payload Hp Hs Hs' Hh
             cfg w accessToken) by (assumption || reflexivity).
  rewrite Hr, bool_decide_eq_true_2 by exact Hk. cbn [negb].
  assert ((now_of w - acc_issuedAt accessRecord >? tokenTtlMs cfg) = false) as ->
    by (rewrite Z.gtb_ltb; apply Z.ltb_ge; exact Hel).
  unfold store_phase, now_of. simpl. autorewrite with world.
  fold eventId. fold entry.
  rewrite (storage_accepts_frame eventId (after_query w)) by reflexivity.
  now rewrite Hacc.
Qed.

(** X10. When both [token] and [accessToken] are sent, only the access
    token counts: an access token that [accessTokens] does not hold, or
    holds for another site key, gets 401 [invalid_access_token] however
    good the challenge token is, and the challenge record is not marked. *)
Theorem access_token_takes_precedence
  (url_hostname : string -> option string) (cfg : Config)
  (req : SubmitRequest) (w : World) (siteKey accessToken : string) (payload : json) :
  sr_payload req = Some payload ->
  sr_siteKey req = Some siteKey -> siteKey <> EmptyString ->
  truthy (sr_honeypot req) = false ->
  sr_accessToken req = Some accessToken -> accessToken <> EmptyString ->
  next_query_fails w = false -> origin_passes url_hostname req siteKey w ->
  (accessTokens w !! accessToken = None
   \/ exists accessRecord, accessTokens w !! accessToken = Some accessRecord
                           /\ acc_siteKey accessRecord <> siteKey) ->
  post_submit url_hostname cfg req w
  = (Return (RespError 401 invalid_access_token), after_query w)
  /\ challengeTokens (after_query w) = challengeTokens w.
Proof.
  intros Hp Hs Hs' Hh Ha Ha' Hq Ho Hbad.
  split; [| apply after_query_challengeTokens].
  rewrite (post_submit_access_run url_hostname cfg req siteKey payload Hp Hs Hs' Hh
             cfg w accessToken) by (assumption || reflexivity).
  destruct Hbad as [-> | (accessRecord & -> & Hk)]; [reflexivity |].
  now rewrite bool_decide_eq_false_2 by exact Hk.
Qed.

(** X11. An access token is not used up by a submission: an accepted
    [/v1/submit] with an access token leaves both token maps as they
    were, and the same request is accepted again, under a new reading of
    the clock, as long as the token has not expired and the lookup and
    the store go through. *)
Theorem access_token_is_not_consumed
  (url_hostname : string -> option string) (cfg : Config)
  (req : SubmitRequest) (w : World) (siteKey accessToken : string) (payload : json)
  (accessRecord : AccessRecord) :
  sr_payload req = Some payload ->
  sr_siteKey req = Some siteKey -> siteKey <> EmptyString ->
  truthy (sr_honeypot req) = false ->
  sr_accessToken req = Some accessToken -> accessToken <> EmptyString ->
  next_query_fails w = false -> origin_passes url_hostname req siteKey w ->
  accessTokens w !! accessToken = Some accessRecord ->
  acc_siteKey accessRecord = siteKey ->
  now_of w - acc_issuedAt accessRecord <= tokenTtlMs cfg ->
  storage_accepts ("evt_" +:+ render (clock (env w) (S (ticks w)))) (after_query w)
  = true ->
  exists w1,
    post_submit url_hostname cfg req w
    = (Return (RespSubmit ("evt_" +:+ render (clock (env w) (S (ticks w))))), w1)
    /\ accessTokens w1 = accessTokens w
    /\ challengeTokens w1 = challengeTokens w
    /\ (next_query_fails w1 = false ->
        clock (env w) (S (S (ticks w))) - acc_issuedAt accessRecord <= tokenTtlMs cfg ->
        storage_accepts ("evt_" +:+ render (clock (env w) (S (S (S (ticks w))))))
                        (after_query w1) = true ->
        exists w2,
          post_submit url_hostname cfg req w1
          = (Return (RespSubmit ("evt_" +:+ render (clock (env w) (S (S (S (ticks w))))))),
             w2)).
Proof.
  intros Hp Hs Hs' Hh Ha Ha' Hq Ho Hr Hk Hel Hacc.
  eexists. split.
  { apply (post_submit_access_accepted url_hostname cfg req siteKey payload w
             accessToken accessRecord); assumption. }
  match goal with
  | |- context [stored ?e ?y] =>
      destruct (stored_frame e y) as (Henv & Hticks & Hct & Hat & _);
      pose proof (site_of_stored siteKey e y) as Hsite;
      set (w1 := stored e y) in *
  end.
  simpl in Henv, Hticks, Hct, Hat. autorewrite with world in Henv, Hct, Hat.
  change (site_of siteKey (set_ticks (S (S (ticks w))) (after_query w)))
    with (site_of siteKey (after_query w)) in Hsite.
  rewrite site_of_after_query in Hsite.
  split; [exact Hat |]. split; [exact Hct |].
  intros Hq1 Hel1 Hacc1. eexists.
  rewrite (post_submit_access_accepted url_hostname cfg req siteKey payload w1
             accessToken accessRecord); try assumption.
  - rewrite Henv, Hticks. reflexivity.
  - unfold origin_passes in *. now rewrite Hsite.
  - now rewrite Hat.
  - unfold now_of. now rewrite Henv, Hticks.
  - now rewrite Henv, Hticks.
Qed.

(** ** From verification to submission *)

Lemma set_ticks_stored_submissions (n : nat) (w : World) :
  stored_submissions (set_ticks n w) = stored_submissions w.
Proof. reflexivity. Qed.

Lemma verified_world_access (siteKey token : string) (record : ChallengeRecord)
      (w : World) :
  accessTokens (verified_world siteKey token record w)
  !! ("acc_" +:+ randomBytesHex (env w) (rb_calls w))
  = Some (mkAccess siteKey (clock (env w) (S (ticks w)))).
Proof. unfold verified_world, accessTokens_set. simpl. apply lookup_insert_eq. Qed.

Lemma access_token_nonempty (hex : string) : "acc_" +:+ hex <> EmptyString.
Proof. discriminate. Qed.

(** X12. The access token that [/v1/verify] hands out is bound to the
    site key of the request and is dated by the clock at verification,
    not by the challenge: at a moment when the challenge token itself is
    refused by [/v1/submit] as expired, a submission with the access
    token is still accepted if less than the TTL has passed since the
    verification. *)
Theorem access_token_outlives_challenge
  (url_hostname : string -> option string) (cfg : Config)
  (vreq : VerifyRequest) (w : World) (siteKey token : string)
  (record : ChallengeRecord) :
  vr_siteKey vreq = Some siteKey -> siteKey <> EmptyString ->
  vr_token vreq = Some token -> token <> EmptyString ->
  next_query_fails w = false ->
  bool_decide (is_Some (site_of siteKey w))
  && negb (isOriginAllowed url_hostname (site_of siteKey w) (vr_origin vreq)) = false ->
  challengeTokens w !! token = Some record ->
  chl_siteKey record = siteKey ->
  now_of w - chl_issuedAt record <= tokenTtlMs cfg ->
  let accessToken := "acc_" +:+ randomBytesHex (env w) (rb_calls w) in
  let w1 := verified_world siteKey token record w in
  post_verify url_hostname cfg vreq w = (Return (RespVerify accessToken), w1)
  /\ accessTokens w1 !! accessToken
     = Some (mkAccess siteKey (clock (env w) (S (ticks w))))
  /\ (forall req payload,
        sr_payload req = Some payload ->
        sr_siteKey req = Some siteKey ->
        truthy (sr_honeypot req) = false ->
        next_query_fails w1 = false ->
        origin_passes url_hostname req siteKey w1 ->
        tokenTtlMs cfg < now_of w1 - chl_issuedAt record ->
        now_of w1 - clock (env w) (S (ticks w)) <= tokenTtlMs cfg ->
        (truthy (sr_accessToken req) = false -> sr_token req = Some token ->
         post_submit url_hostname cfg req w1
         = (Return (RespError 401 token_expired),
            set_ticks (S (ticks w1)) (after_query w1)))
        /\ (sr_accessToken req = Some accessToken ->
            storage_accepts ("evt_" +:+ render (clock (env w1) (S (ticks w1))))
                            (after_query w1) = true ->
            exists w2,
              post_submit url_hostname cfg req w1
              = (Return (RespSubmit ("evt_" +:+ render (clock (env w1) (S (ticks w1))))),
                 w2))).
Proof.
  intros Hs Hs' Ht Ht' Hq Ho Hr Hk Hel accessToken w1.
  split; [now apply post_verify_in_time |].
  split; [apply verified_world_access |].
  intros req payload Hp Hsk Hh Hq1 Ho1 Hold Hyoung. split.
  - intros Hta Htk.
    assert (truthy (sr_token req) || truthy (sr_accessToken req) = true) as Htt.
    { assert (truthy (sr_token req) = true) as -> by (apply truthy_Some; eauto).
      reflexivity. }
    rewrite (post_submit_run _ _ _ _ _ _ Hp Hsk Hs' Htt Hh), Hq1.
    unfold origin_passes in Ho1. rewrite Ho1.
    unfold redeem_phase. rewrite Hta, Htk, str_Some.
    destruct (verified_world_frame siteKey token record w)
      as (_ & _ & _ & _ & _ & _ & Hct).
    fold w1 in Hct. rewrite Hct, lookup_insert_eq. cbn [chl_siteKey chl_issuedAt].
    rewrite bool_decide_eq_true_2 by exact Hk. cbn [negb].
    assert ((now_of w1 - chl_issuedAt record >? tokenTtlMs cfg) = true) as ->
      by (apply Z.gtb_gt; lia).
    reflexivity.
  - intros Ha Hacc. eexists.
    apply (post_submit_access_accepted url_hostname cfg req siteKey payload w1
             accessToken (mkAccess siteKey (clock (env w) (S (ticks w)))));
      try assumption.
    + apply access_token_nonempty.
    + apply verified_world_access.
    + reflexivity.
Qed.

(** X13. The whole flow: a challenge for a site key, the verification of
    the token it returned and a submission with the access token that
    the verification returned are all three accepted, one after the
    other, when no site is registered under the key (or the registered
    site admits the origins), the database answers, each token is
    presented within the TTL and the store takes the entry. *)
Theorem challenge_verify_submit
  (url_hostname : string -> option string) (cfg : Config)
  (creq : ChallengeRequest) (vreq : VerifyRequest) (sreq : SubmitRequest)
  (w : World) (siteKey : string) (payload : json) :
  let token := "tok_" +:+ randomBytesHex (env w) (rb_calls w) in
  let accessToken := "acc_" +:+ randomBytesHex (env w) (S (rb_calls w)) in
  let eventId := "evt_" +:+ render (clock (env w) (5 + ticks w)%nat) in
  let w1 := issued_world siteKey w in
  let w2 := verified_world siteKey token
              (mkChallenge siteKey (clock (env w) (S (ticks w))) false) w1 in
  siteKey <> EmptyString ->
  cr_siteKey creq = Some siteKey ->
  vr_siteKey vreq = Some siteKey -> vr_token vreq = Some token ->
  sr_siteKey sreq = Some siteKey -> sr_accessToken sreq = Some accessToken ->
  sr_payload sreq = Some payload -> truthy (sr_honeypot sreq) = false ->
  bool_decide (is_Some (site_of siteKey w))
  && negb (isOriginAllowed url_hostname (site_of siteKey w) (vr_origin vreq)) = false ->
  origin_passes url_hostname sreq siteKey w ->
  next_query_fails w1 = false -> next_query_fails w2 = false ->
  clock (env w) (2 + ticks w)%nat - clock (env w) (1 + ticks w)%nat <= tokenTtlMs cfg ->
  clock (env w) (4 + ticks w)%nat - clock (env w) (3 + ticks w)%nat <= tokenTtlMs cfg ->
  storage_accepts eventId (after_query w2) = true ->
  post_challenge creq w
  = (Return (RespChallenge ("chl_" +:+ render (now_of w)) token), w1)
  /\ post_verify url_hostname cfg vreq w1 = (Return (RespVerify accessToken), w2)
  /\ exists w3,
      post_submit url_hostname cfg sreq w2 = (Return (RespSubmit eventId), w3)
      /\ stored_submissions w3
         = stored_submissions w
           ++ [persisted (mkSubmission eventId siteKey payload (sr_fingerprint sreq)
                                       (sr_ip sreq) (sr_ua sreq) (sr_origin sreq)) w].
Proof.
  intros token accessToken eventId w1 w2 Hs' Hc Hvs Hvt Hss Hsa Hp Hh Hov Hos
         Hq1 Hq2 Hel1 Hel2 Hacc.
  destruct (issued_world_frame siteKey w)
    as (Henv1 & Hticks1 & _ & Hpool1 & Hsites1 & Hsub1 & _ & Hct1).
  fold w1 in Henv1, Hticks1, Hpool1, Hsites1, Hsub1, Hct1. fold token in Hct1.
  destruct (verified_world_frame siteKey token
              (mkChallenge siteKey (clock (env w) (S (ticks w))) false) w1)
    as (Henv2 & Hpool2 & Hsites2 & Hsub2 & _ & Hticks2 & _).
  fold w2 in Henv2, Hpool2, Hsites2, Hsub2, Hticks2.
  pose proof (verified_world_access siteKey token
                (mkChallenge siteKey (clock (env w) (S (ticks w))) false) w1) as Hat2.
  fold w2 in Hat2.
  assert (rb_calls w1 = S (rb_calls w)) as Hrb1 by reflexivity.
  rewrite Henv1, Hrb1, Hticks1 in Hat2. fold accessToken in Hat2.
  split; [now apply post_challenge_run |]. split.
  - rewrite (post_verify_in_time url_hostname cfg vreq w1 siteKey token
               (mkChallenge siteKey (clock (env w) (S (ticks w))) false));
      try assumption; try reflexivity.
    apply token_nonempty.
  - pose proof (post_submit_access_accepted url_hostname cfg sreq siteKey payload w2
                  accessToken (mkAccess siteKey (clock (env w) (S (S (S (ticks w))))))
                  Hp Hss Hs' Hh Hsa (access_token_nonempty _) Hq2) as Hrun.
    cbv zeta in Hrun. cbn [acc_siteKey acc_issuedAt] in Hrun. unfold now_of in Hrun.
    rewrite Henv2, Henv1, Hticks2, Hticks1 in Hrun.
    eexists. split.
    + apply Hrun; try assumption; try reflexivity.
      unfold origin_passes in *.
      rewrite (site_of_frame siteKey w1 w2 Hpool2 Hsites2).
      now rewrite (site_of_frame siteKey w w1 Hpool1 Hsites1).
    + match goal with
      | |- context [stored ?e ?y] =>
          destruct (stored_frame e y) as (_ & _ & _ & _ & Hss3); rewrite Hss3
      end.
      rewrite set_ticks_stored_submissions, after_query_stored_submissions.
      assert (stored_submissions w2 = stored_submissions w) as ->
        by (unfold stored_submissions; now rewrite Hpool2, Hsub2, Hpool1, Hsub1).
      assert (forall n x, pool (set_ticks n x) = pool x) as Hst by reflexivity.
      unfold persisted. rewrite Hst, after_query_pool, Hpool2, Hpool1.
      reflexivity.
Qed.

(** ** Challenges *)

(** X14. A challenge request without a site key is answered 400
    [missing_site_key] and changes nothing.  A challenge that is issued
    writes one record, under the new token: the record of every other
    token, the access tokens, the sites and the submissions stay as they
    were, and no query is sent. *)
Theorem challenge_touches_one_record (req : ChallengeRequest) (w : World) :
  (truthy (cr_siteKey req) = false ->
   post_challenge req w = (Return (RespError 400 missing_site_key), w))
  /\ (forall token,
        token <> "tok_" +:+ randomBytesHex (env w) (rb_calls w) ->
        challengeTokens (snd (post_challenge req w)) !! token
        = challengeTokens w !! token)
  /\ accessTokens (snd (post_challenge req w)) = accessTokens w
  /\ sites (snd (post_challenge req w)) = sites w
  /\ pool (snd (post_challenge req w)) = pool w
  /\ submissions (snd (post_challenge req w)) = submissions w
  /\ db_calls (snd (post_challenge req w)) = db_calls w.
Proof.
  destruct (truthy (cr_siteKey req)) eqn:Hs.
  - apply truthy_Some in Hs as (siteKey & Hs & Hs').
    rewrite (post_challenge_run req w siteKey Hs Hs'). simpl.
    split; [discriminate |]. split; [| repeat split; reflexivity].
    intros token Hne. now apply lookup_insert_ne.
  - unfold post_challenge. rewrite Hs. simpl. repeat split; reflexivity.
Qed.

(** ** The admin gate and site creation *)

(** X15. [/v1/admin/sites] answers 401 [unauthorized], and leaves the
    world as it found it, exactly when [ADMIN_API_KEY] is unset or empty
    or the [x-admin-api-key] header differs from it.  With no key
    configured every request is refused, a request without the header
    too. *)
Theorem admin_gate_refuses_exactly
  (cfg : Config) (req : AdminSiteRequest) (w : World) :
  (truthy (adminApiKey cfg) = false \/ ar_adminKey req <> adminApiKey cfg)
  <-> post_admin_sites cfg req w = (Return (RespError 401 unauthorized), w).
Proof.
  assert (requireAdminKey cfg (ar_adminKey req) = false
          <-> truthy (adminApiKey cfg) = false \/ ar_adminKey req <> adminApiKey cfg)
    as Hgate.
  { unfold requireAdminKey. rewrite negb_false_iff, orb_true_iff, !negb_true_iff.
    now rewrite bool_decide_eq_false. }
  rewrite <- Hgate. split.
  - intros Hk. unfold post_admin_sites. now rewrite Hk.
  - intros Hrun. destruct (requireAdminKey cfg (ar_adminKey req)) eqn:Hk;
      [| reflexivity].
    destruct (truthy (ar_name req)) eqn:Hn.
    + rewrite (post_admin_sites_run cfg req w Hk Hn) in Hrun.
      destruct (storeSite _ _) as [[u|e] w1]; discriminate.
    + unfold post_admin_sites in Hrun. rewrite Hk, Hn in Hrun. discriminate.
Qed.

(** X16. A request to [/v1/admin/sites] that is answered with an error,
    the 500 of a refused insert included, leaves the sites of either
    backend, the submissions and both token maps as they were. *)
Theorem failed_creation_stores_nothing
  (cfg : Config) (req : AdminSiteRequest) (w w' : World)
  (status : Z) (error : ErrorKind) :
  post_admin_sites cfg req w = (Return (RespError status error), w') ->
  stored_sites w' = stored_sites w
  /\ stored_submissions w' = stored_submissions w
  /\ challengeTokens w' = challengeTokens w
  /\ accessTokens w' = accessTokens w.
Proof.
  intros Hrun.
  destruct (requireAdminKey cfg (ar_adminKey req)) eqn:Hk;
    [| unfold post_admin_sites in Hrun; rewrite Hk in Hrun;
       injection Hrun as _ _ <-; auto].
  destruct (truthy (ar_name req)) eqn:Hn;
    [| unfold post_admin_sites in Hrun; rewrite Hk, Hn in Hrun;
       injection Hrun as _ _ <-; auto].
  rewrite (post_admin_sites_run cfg req w Hk Hn), storeSite_run in Hrun.
  change (pool (keys_drawn w)) with (pool w) in Hrun.
  unfold stored_sites, stored_submissions.
  destruct (pool w) as [db|] eqn:Hp; [| discriminate].
  assert (pool (after_query (keys_drawn w)) = Some db
          /\ challengeTokens (after_query (keys_drawn w)) = challengeTokens w
          /\ accessTokens (after_query (keys_drawn w)) = accessTokens w) as (Hp' & Hc & Ha)
    by (autorewrite with world; auto).
  destruct (dbFault _ _);
    [| destruct (insert_site _ db) as [[[] db']|]; [discriminate |]];
    injection Hrun as _ _ <-; rewrite Hp'; auto.
Qed.

(** X17. A created site carries the name and the domain list of the
    request, the empty list when the request has none; its [siteKey]
    and its [secretKey] are never the same string; and a site created
    without domains admits every origin. *)
Theorem created_site_shape
  (cfg : Config) (req : AdminSiteRequest) (w w' : World) (site : Site) :
  post_admin_sites cfg req w = (Return (RespSite site), w') ->
  ar_name req = Some (site_name site)
  /\ site_domains site = default [] (ar_domains req)
  /\ site_siteKey site <> site_secretKey site
  /\ (ar_domains req = None \/ ar_domains req = Some [] ->
      forall url_hostname origin,
        isOriginAllowed url_hostname (Some site) origin = true).
Proof.
  intros Hrun.
  assert (truthy (ar_name req) = true) as Hn.
  { destruct (truthy (ar_name req)) eqn:Hn; [reflexivity |].
    unfold post_admin_sites in Hrun. rewrite Hn in Hrun.
    destruct (negb _); discriminate. }
  apply post_admin_sites_created_inv in Hrun as [-> _].
  apply truthy_Some in Hn as (name & Hn & _).
  split; [simpl; now rewrite Hn |]. split; [reflexivity |].
  split; [discriminate |].
  intros Hd url_hostname origin. apply isOriginAllowed_no_domains. simpl.
  destruct Hd as [-> | ->]; reflexivity.
Qed.

Lemma map_set_again {V : Type} (k : string) (v1 v2 : V) (m : list (string * V)) :
  map_set k v2 (map_set k v1 m) = map_set k v2 m.
Proof.
  induction m as [|[k' v'] m IH]; simpl.
  - now rewrite bool_decide_eq_true_2.
  - destruct (bool_decide (k' = k)) eqn:Hk; simpl.
    + now rewrite bool_decide_eq_true_2.
    + now rewrite Hk, IH.
Qed.

Lemma length_map_set_present {V : Type} (k : string) (v1 v2 : V) (m : list (string * V)) :
  length (map_set k v2 (map_set k v1 m)) = length (map_set k v1 m).
Proof.
  induction m as [|[k' v'] m IH]; simpl.
  - now rewrite bool_decide_eq_true_2.
  - destruct (bool_decide (k' = k)) eqn:Hk; simpl.
    + now rewrite bool_decide_eq_true_2.
    + rewrite Hk. simpl. now rewrite IH.
Qed.

Lemma find_map_set_none {V : Type} (P : V -> bool) (k : string) (v : V)
      (m : list (string * V)) :
  find P (map_values m) = None -> P v = false ->
  find P (map_values (map_set k v m)) = None.
Proof.
  intros Hnone Hv. induction m as [|[k' v'] m IH]; simpl in *.
  - now rewrite Hv.
  - destruct (P v') eqn:Hv'; [discriminate |].
    destruct (bool_decide (k' = k)); simpl.
    + now rewrite Hv.
    + rewrite Hv'. now apply IH.
Qed.

Lemma post_admin_sites_in_memory (cfg : Config) (req : AdminSiteRequest)
      (w w' : World) (site : Site) :
  pool w = None ->
  post_admin_sites cfg req w = (Return (RespSite site), w') ->
  site = new_site req w /\ pool w' = None
  /\ sites w' = map_set (site_id site) site (sites w).
Proof.
  intros Hp Hrun. apply post_admin_sites_created_inv in Hrun as [-> Hstore].
  rewrite storeSite_run in Hstore.
  change (pool (keys_drawn w)) with (pool w) in Hstore. rewrite Hp in Hstore.
  injection Hstore as <-. auto.
Qed.

(** X18. The in-process map is keyed by [site_${Date.now()}]: of two
    sites created within the same millisecond the second takes the place
    of the first.  The map does not grow, and the first site, found under
    its key after its creation, is no longer found after the second. *)
Theorem same_millisecond_site_replaces
  (cfg : Config) (req1 req2 : AdminSiteRequest) (w w1 w2 : World) (s1 s2 : Site) :
  pool w = None ->
  post_admin_sites cfg req1 w = (Return (RespSite s1), w1) ->
  post_admin_sites cfg req2 w1 = (Return (RespSite s2), w2) ->
  site_id s2 = site_id s1 ->
  site_of (site_siteKey s1) w = None ->
  site_siteKey s2 <> site_siteKey s1 ->
  site_of (site_siteKey s1) w1 = Some s1
  /\ site_of (site_siteKey s1) w2 = None
  /\ length (sites w2) = length (sites w1).
Proof.
  intros Hp H1 H2 Hid Hfresh Hne.
  apply (post_admin_sites_in_memory cfg req1 w w1 s1 Hp) in H1 as (_ & Hp1 & Hs1).
  apply (post_admin_sites_in_memory cfg req2 w1 w2 s2 Hp1) in H2 as (_ & Hp2 & Hs2).
  unfold site_of in *. rewrite Hp in Hfresh. rewrite Hp1, Hp2, Hs2, Hs1, Hid.
  split; [| split].
  - apply find_map_set_fresh; [exact Hfresh | now apply bool_decide_eq_true].
  - rewrite map_set_again.
    apply find_map_set_none; [exact Hfresh | now apply bool_decide_eq_false].
  - apply length_map_set_present.
Qed.

(** X19. The pool refuses what the map takes: when a row of [sites]
    already has the [id] or the [site_key] of the site being created,
    [/v1/admin/sites] answers 500 [storage_failed] and the table is as it
    was. *)
Theorem pool_refuses_duplicate_site
  (cfg : Config) (req : AdminSiteRequest) (w : World) (db : Db) (row : Site) :
  requireAdminKey cfg (ar_adminKey req) = true ->
  truthy (ar_name req) = true ->
  pool w = Some db ->
  In row (db_sites db) ->
  site_id row = site_id (new_site req w)
  \/ site_siteKey row = site_siteKey (new_site req w) ->
  exists w',
    post_admin_sites cfg req w = (Return (RespError 500 storage_failed), w')
    /\ pool w' = Some db.
Proof.
  intros Hk Hn Hp Hrow Hdup.
  rewrite (post_admin_sites_run cfg req w Hk Hn), storeSite_run.
  change (pool (keys_drawn w)) with (pool w). rewrite Hp.
  assert (pool (after_query (keys_drawn w)) = Some db) as Hp'
    by (rewrite after_query_pool; exact Hp).
  destruct (dbFault _ _); [eauto |].
  unfold insert_site.
  assert (existsb (fun r => bool_decide (site_id r = site_id (new_site req w))
                            || bool_decide (site_siteKey r
                                            = site_siteKey (new_site req w)))
                  (db_sites db) = true) as ->.
  { apply existsb_exists. exists row. split; [exact Hrow |].
    apply orb_true_iff. destruct Hdup as [H | H]; [left | right];
      now apply bool_decide_eq_true. }
  eauto.
Qed.

(** ** The origin guard and the registry *)

(** X20. Listing more domains never shuts an origin out: an origin that
    a site with a non-empty domain list admits is admitted by every site
    whose list contains that list.  (Going from no list to a list does
    shut origins out: the empty list admits everything.) *)
Theorem more_domains_admit_more
  (url_hostname : string -> option string) (site site' : Site)
  (origin : option string) :
  site_domains site <> [] ->
  (forall domain, In domain (site_domains site) -> In domain (site_domains site')) ->
  isOriginAllowed url_hostname (Some site) origin = true ->
  isOriginAllowed url_hostname (Some site') origin = true.
Proof.
  intros Hne Hsub Hallowed.
  destruct (truthy (getOriginHost url_hostname origin)) eqn:Hhost;
    [| now apply isOriginAllowed_no_host].
  unfold isOriginAllowed in *. rewrite Hhost in *. simpl in *.
  rewrite bool_decide_eq_false_2 in Hallowed by exact Hne.
  destruct (bool_decide (site_domains site' = [])); [reflexivity |].
  apply existsb_exists in Hallowed as (domain & Hin & Hmatch).
  apply existsb_exists. exists domain. auto.
Qed.

(** X21. [findSiteBySiteKey] answers truly: a site it returns is held by
    the active backend and has the key asked for; when it returns none,
    the key is empty or no site held has it; and for the empty key it
    returns none without a query. *)
Theorem findSiteBySiteKey_answers_truly (siteKey : string) (w w' : World) :
  (forall site,
      findSiteBySiteKey siteKey w = (Return (Some site), w') ->
      site_siteKey site = siteKey /\ siteKey <> EmptyString
      /\ In site (stored_sites w))
  /\ (findSiteBySiteKey siteKey w = (Return None, w') ->
      siteKey = EmptyString
      \/ forall site, In site (stored_sites w) -> site_siteKey site <> siteKey)
  /\ findSiteBySiteKey EmptyString w = (Return None, w).
Proof.
  split; [| split; [| reflexivity]].
  - intros site Hrun.
    destruct (decide (siteKey = EmptyString)) as [-> | Hk]; [discriminate |].
    rewrite (findSiteBySiteKey_run _ _ Hk) in Hrun.
    destruct (next_query_fails w); [discriminate |].
    injection Hrun as Hfind _. unfold site_of, stored_sites in *.
    destruct (pool w); apply find_some in Hfind as [Hin Heq];
      apply bool_decide_eq_true in Heq; auto.
  - intros Hrun.
    destruct (decide (siteKey = EmptyString)) as [-> | Hk]; [now left |]. right.
    rewrite (findSiteBySiteKey_run _ _ Hk) in Hrun.
    destruct (next_query_fails w); [discriminate |].
    injection Hrun as Hfind _. unfold site_of, stored_sites in *.
    intros site Hin.
    destruct (pool w); apply (find_none _ _ Hfind) in Hin;
      now apply bool_decide_eq_false in Hin.
Qed.

(** X22. The two kinds of token cannot stand in for each other.  In a
    world whose token maps have their prefixes, a challenge token sent as
    [accessToken] to [/v1/submit] gets 401 [invalid_access_token], and an
    access token sent as [token] to [/v1/verify] gets 401
    [invalid_token]. *)
Theorem token_kinds_do_not_mix
  (url_hostname : string -> option string) (cfg : Config)
  (w : World) (siteKey hex : string) :
  tokens_prefixed w ->
  siteKey <> EmptyString ->
  next_query_fails w = false ->
  (forall req payload,
      sr_payload req = Some payload ->
      sr_siteKey req = Some siteKey ->
      truthy (sr_honeypot req) = false ->
      sr_accessToken req = Some ("tok_" +:+ hex) ->
      origin_passes url_hostname req siteKey w ->
      post_submit url_hostname cfg req w
      = (Return (RespError 401 invalid_access_token), after_query w))
  /\ (forall req,
        vr_siteKey req = Some siteKey ->
        vr_token req = Some ("acc_" +:+ hex) ->
        bool_decide (is_Some (site_of siteKey w))
        && negb (isOriginAllowed url_hostname (site_of siteKey w) (vr_origin req))
        = false ->
        post_verify url_hostname cfg req w
        = (Return (RespError 401 invalid_token), after_query w)).
Proof.
  intros [Hc Ha] Hs' Hq. split.
  - intros req payload Hp Hs Hh Hat Ho.
    rewrite (post_submit_access_run url_hostname cfg req siteKey payload Hp Hs Hs' Hh
               cfg w ("tok_" +:+ hex)) by (assumption || reflexivity || discriminate).
    destruct (accessTokens w !! ("tok_" +:+ hex)) as [accessRecord|] eqn:Hr;
      [| reflexivity].
    destruct (Ha ("tok_" +:+ hex)) as [hex' Hhex]; [rewrite Hr; eauto |].
    discriminate Hhex.
  - intros req Hs Ht Ho.
    rewrite (post_verify_run _ _ _ _ _ _ Hs Hs' Ht (access_token_nonempty hex)), Hq, Ho.
    destruct (challengeTokens w !! ("acc_" +:+ hex)) as [record|] eqn:Hr;
      [| reflexivity].
    destruct (Hc ("acc_" +:+ hex)) as [hex' Hhex]; [rewrite Hr; eauto |].
    discriminate Hhex.
Qed.

(** * The further properties at work on the example worlds *)

Lemma fresh_world_tables_keyed (e : Env) (p : option Db) :
  p = None \/ p = Some (mkDb [] []) -> tables_keyed (fresh_world e p).
Proof.
  intros [-> | ->]; unfold tables_keyed; simpl; [exact I |].
  repeat split; apply NoDup_nil_2.
Qed.

Lemma fresh_world_tokens_prefixed (e : Env) (p : option Db) :
  tokens_prefixed (fresh_world e p).
Proof.
  split; intros k [x Hx]; simpl in Hx; rewrite lookup_empty in Hx; discriminate.
Qed.

Lemma tables_stay_keyed_witness :
  tables_keyed
    (serve_all demo_url_hostname demo_config
       [ToAdminSites (demo_admin_request ["domain.com"%string]);
        ToChallenge demo_challenge_request;
        ToSubmit (demo_submit_request None);
        ToSubmit (demo_submit_request None)]
       (fresh_world (demo_env frozen_clock) (Some (mkDb [] [])))).
Proof.
  apply tables_stay_keyed. apply fresh_world_tables_keyed. now right.
Defined.

Lemma tokens_stay_prefixed_witness :
  tokens_prefixed
    (serve_all demo_url_hostname demo_config
       [ToChallenge demo_challenge_request; ToVerify demo_verify_request]
       (fresh_world (demo_env ticking_clock) None)).
Proof. apply tokens_stay_prefixed. apply fresh_world_tokens_prefixed. Defined.

Lemma backend_is_fixed_witness :
  pool (serve_all demo_url_hostname demo_config
          [ToAdminSites (demo_admin_request []); ToChallenge demo_challenge_request;
           ToSubmit (demo_submit_request None)]
          (fresh_world (demo_env ticking_clock) None))
  = None.
Proof.
  apply (proj1 (backend_is_fixed demo_url_hostname demo_config _
                  (fresh_world (demo_env ticking_clock) None))).
  reflexivity.
Defined.


Lemma verify_server_accepts_exactly_witness :
  fst (post_verify_server (demo_server_request (Some "sk_abc"%string) None)
                          registered_world)
  = Return ServerRespOk
  /\ post_verify_server
       (demo_server_request (Some "wrong"%string) (Some "sk_abc"%string))
       registered_world
     = post_verify_server (demo_server_request (Some "wrong"%string) None)
                          registered_world.
Proof.
  split.
  - destruct (verify_server_accepts_exactly
                (demo_server_request (Some "sk_abc"%string) None)
                registered_world "pk_abc"%string) as [Hiff _];
      [settle | settle | settle | settle |].
    apply Hiff. exists demo_site, "sk_abc"%string.
    repeat split; [discriminate | now left].
  - destruct (verify_server_accepts_exactly
                (demo_server_request (Some "wrong"%string) None)
                registered_world "pk_abc"%string) as [_ Hbody];
      [settle | settle | settle | settle |].
    apply (Hbody eq_refl (Some "sk_abc"%string)).
Defined.

Lemma foreign_token_is_invalid_witness :
  post_verify demo_url_hostname demo_config
              (mkVerifyRequest (Some "pk_other"%string) (Some "tok_h0"%string) None)
              challenged_demo_world
  = (Return (RespError 401 invalid_token), after_query challenged_demo_world).
Proof.
  destruct (foreign_token_is_invalid demo_url_hostname demo_config
              challenged_demo_world "pk_other"%string "tok_h0"%string) as [Hverify _];
    [settle | settle | settle | |].
  - right. exists (mkChallenge "pk_abc" (ticking_clock 1) false).
    split; [reflexivity | discriminate].
  - apply Hverify; reflexivity.
Defined.

Lemma origin_refusal_comes_before_tokens_witness :
  post_verify demo_url_hostname demo_config
              (mkVerifyRequest (Some "pk_abc"%string) (Some "tok_never"%string)
                               (Some "https://notdomain.com"%string))
              registered_world
  = (Return (RespError 403 origin_not_allowed), after_query registered_world).
Proof.
  destruct (origin_refusal_comes_before_tokens demo_url_hostname demo_config
              registered_world "pk_abc"%string demo_site) as [Hverify _];
    [settle | settle | settle |].
  apply Hverify; reflexivity.
Defined.

Lemma rejected_lookup_is_a_500_witness :
  post_submit demo_url_hostname demo_config (demo_submit_request None)
              (challenged_world down_env (Some (mkDb [] [])))
  = (Return (RespError 500 storage_failed),
     after_query (challenged_world down_env (Some (mkDb [] [])))).
Proof.
  destruct (rejected_lookup_is_a_500 demo_url_hostname demo_config
              (challenged_world down_env (Some (mkDb [] []))) "pk_abc"%string)
    as (_ & _ & Hsubmit); [settle | settle |].
  apply (Hsubmit (demo_submit_request None) (JObj [("a"%string, JNum 1)]));
    reflexivity.
Defined.

Lemma submit_stores_iff_accepted_witness :
  stored_submissions
    (snd (post_submit demo_url_hostname demo_config
                      (demo_submit_request (Some "x"%string)) challenged_demo_world))
  = stored_submissions challenged_demo_world.
Proof.
  apply (proj1 (submit_stores_iff_accepted demo_url_hostname demo_config
                  (demo_submit_request (Some "x"%string)) challenged_demo_world
                  (snd (post_submit demo_url_hostname demo_config
                                    (demo_submit_request (Some "x"%string))
                                    challenged_demo_world)))
               400 honeypot_triggered).
  reflexivity.
Defined.

Lemma access_token_takes_precedence_witness :
  post_submit demo_url_hostname demo_config
              (demo_access_request_with (Some "tok_h0"%string) (Some "acc_bogus"%string)
                                        None)
              challenged_demo_world
  = (Return (RespError 401 invalid_access_token), after_query challenged_demo_world).
Proof.
  apply (access_token_takes_precedence demo_url_hostname demo_config
           (demo_access_request_with (Some "tok_h0"%string) (Some "acc_bogus"%string)
                                     None)
           challenged_demo_world "pk_abc"%string "acc_bogus"%string
           (JObj [("a"%string, JNum 1)]));
    try settle.
  now left.
Defined.

Lemma access_token_is_not_consumed_witness :
  exists w1,
    post_submit demo_url_hostname demo_config demo_access_request verified_once_world
    = (Return (RespSubmit ("evt_" +:+ render (ticking_clock 5))), w1)
    /\ accessTokens w1 = accessTokens verified_once_world.
Proof.
  destruct (access_token_is_not_consumed demo_url_hostname demo_config
              demo_access_request verified_once_world "pk_abc"%string "acc_h1"%string
              (JObj [("a"%string, JNum 1)]) (mkAccess "pk_abc" (ticking_clock 3)))
    as (w1 & Hrun & Hat & _); try settle.
  exists w1. split; [exact Hrun | exact Hat].
Defined.

Lemma access_token_outlives_challenge_witness :
  post_submit demo_url_hostname short_config (demo_submit_request None)
              verified_once_world
  = (Return (RespError 401 token_expired),
     set_ticks 5 (after_query verified_once_world))
  /\ exists w2,
      post_submit demo_url_hostname short_config demo_access_request verified_once_world
      = (Return (RespSubmit ("evt_" +:+ render (ticking_clock 5))), w2).
Proof.
  destruct (access_token_outlives_challenge demo_url_hostname short_config
              demo_verify_request challenged_demo_world "pk_abc"%string "tok_h0"%string
              (mkChallenge "pk_abc" (ticking_clock 1) false))
    as (_ & _ & Hsubmit);
    [settle | settle | settle | settle | settle | settle | settle | settle | settle |].
  split.
  - destruct (Hsubmit (demo_submit_request None) (JObj [("a"%string, JNum 1)]))
      as [Hexpired _];
      [settle | settle | settle | settle | settle | settle | settle |].
    apply Hexpired; reflexivity.
  - destruct (Hsubmit demo_access_request (JObj [("a"%string, JNum 1)]))
      as [_ Haccepted];
      [settle | settle | settle | settle | settle | settle | settle |].
    apply Haccepted; reflexivity.
Defined.

Lemma challenge_verify_submit_witness :
  exists w3,
    post_submit demo_url_hostname demo_config demo_access_request verified_once_world
    = (Return (RespSubmit ("evt_" +:+ render (ticking_clock 5))), w3)
    /\ map sub_siteKey (stored_submissions w3) = ["pk_abc"%string].
Proof.
  destruct (challenge_verify_submit demo_url_hostname demo_config
              demo_challenge_request demo_verify_request demo_access_request
              (fresh_world (demo_env ticking_clock) None) "pk_abc"%string
              (JObj [("a"%string, JNum 1)]))
    as (_ & _ & w3 & Hrun & Hss);
    [settle | settle | settle | settle | settle | settle | settle | settle
     | settle | settle | settle | settle | settle | settle | settle |].
  exists w3. split; [exact Hrun | rewrite Hss; reflexivity].
Defined.

Lemma challenge_touches_one_record_witness :
  post_challenge (mkChallengeRequest (Some EmptyString)) challenged_demo_world
  = (Return (RespError 400 missing_site_key), challenged_demo_world)
  /\ challengeTokens (snd (post_challenge demo_challenge_request challenged_demo_world))
     !! "tok_h0"%string
     = challengeTokens challenged_demo_world !! "tok_h0"%string.
Proof.
  split.
  - apply (proj1 (challenge_touches_one_record
                    (mkChallengeRequest (Some EmptyString)) challenged_demo_world)).
    reflexivity.
  - apply (proj1 (proj2 (challenge_touches_one_record demo_challenge_request
                           challenged_demo_world))).
    discriminate.
Defined.

Lemma failed_creation_stores_nothing_witness :
  stored_sites
    (snd (post_admin_sites demo_config (demo_admin_request ["first.example"%string])
                           pool_with_one_site))
  = stored_sites pool_with_one_site.
Proof.
  apply (failed_creation_stores_nothing demo_config
           (demo_admin_request ["first.example"%string]) pool_with_one_site
           (snd (post_admin_sites demo_config
                                  (demo_admin_request ["first.example"%string])
                                  pool_with_one_site))
           500 storage_failed).
  reflexivity.
Defined.

Lemma created_site_shape_witness :
  site_siteKey (new_site (mkAdminSiteRequest (Some "admin-key"%string)
                                             (Some "demo"%string) None)
                         (fresh_world (demo_env ticking_clock) None))
  <> "sk_r1"%string
  /\ isOriginAllowed demo_url_hostname
       (Some (new_site (mkAdminSiteRequest (Some "admin-key"%string)
                                           (Some "demo"%string) None)
                       (fresh_world (demo_env ticking_clock) None)))
       (Some "https://anywhere.example"%string)
     = true.
Proof.
  destruct (created_site_shape demo_config
              (mkAdminSiteRequest (Some "admin-key"%string) (Some "demo"%string) None)
              (fresh_world (demo_env ticking_clock) None)
              (snd (post_admin_sites demo_config
                      (mkAdminSiteRequest (Some "admin-key"%string)
                                          (Some "demo"%string) None)
                      (fresh_world (demo_env ticking_clock) None)))
              (new_site (mkAdminSiteRequest (Some "admin-key"%string)
                                            (Some "demo"%string) None)
                        (fresh_world (demo_env ticking_clock) None)))
    as (_ & _ & Hkeys & Hopen); [reflexivity |].
  split; [exact Hkeys | apply Hopen; now left].
Defined.

Lemma same_millisecond_site_replaces_witness :
  site_of "pk_r0"
    (snd (post_admin_sites demo_config (demo_admin_request ["second.example"%string])
            (snd (post_admin_sites demo_config
                                   (demo_admin_request ["first.example"%string])
                                   (fresh_world (demo_env frozen_clock) None)))))
  = None.
Proof.
  destruct (same_millisecond_site_replaces demo_config
              (demo_admin_request ["first.example"%string])
              (demo_admin_request ["second.example"%string])
              (fresh_world (demo_env frozen_clock) None)
              (snd (post_admin_sites demo_config
                                     (demo_admin_request ["first.example"%string])
                                     (fresh_world (demo_env frozen_clock) None)))
              (snd (post_admin_sites demo_config
                      (demo_admin_request ["second.example"%string])
                      (snd (post_admin_sites demo_config
                                             (demo_admin_request ["first.example"%string])
                                             (fresh_world (demo_env frozen_clock) None)))))
              (mkSite "site_1700000000000" "demo" ["first.example"%string]
                      "pk_r0" "sk_r1")
              (mkSite "site_1700000000000" "demo" ["second.example"%string]
                      "pk_r2" "sk_r3"))
    as (_ & Hgone & _);
    [reflexivity | vm_compute; reflexivity | vm_compute; reflexivity | reflexivity
     | reflexivity | discriminate |].
  exact Hgone.
Defined.

Lemma pool_refuses_duplicate_site_witness :
  exists w',
    post_admin_sites demo_config (demo_admin_request ["second.example"%string])
                     pool_with_one_site
    = (Return (RespError 500 storage_failed), w')
    /\ pool w'
       = Some (mkDb [mkSite "site_1700000000000" "demo" ["first.example"%string]
                            "pk_r0" "sk_r1"] []).
Proof.
  apply (pool_refuses_duplicate_site demo_config
           (demo_admin_request ["second.example"%string]) pool_with_one_site
           (mkDb [mkSite "site_1700000000000" "demo" ["first.example"%string]
                         "pk_r0" "sk_r1"] [])
           (mkSite "site_1700000000000" "demo" ["first.example"%string]
                   "pk_r0" "sk_r1")).
  - reflexivity.
  - reflexivity.
  - vm_compute. reflexivity.
  - now left.
  - left. vm_compute. reflexivity.
Defined.

Lemma more_domains_admit_more_witness :
  isOriginAllowed demo_url_hostname
    (Some (mkSite "site_1" "demo" ["other.example"%string; "domain.com"%string]
                  "pk_abc" "sk_abc"))
    (Some "https://www.domain.com"%string)
  = true.
Proof.
  apply (more_domains_admit_more demo_url_hostname demo_site).
  - discriminate.
  - intros domain Hin. simpl. now right.
  - reflexivity.
Defined.

Lemma findSiteBySiteKey_answers_truly_witness :
  site_siteKey demo_site = "pk_abc"%string
  /\ "pk_abc"%string <> EmptyString
  /\ In demo_site (stored_sites registered_world).
Proof.
  apply (proj1 (findSiteBySiteKey_answers_truly "pk_abc"%string registered_world
                  registered_world) demo_site).
  reflexivity.
Defined.

Lemma token_kinds_do_not_mix_witness :
  post_submit demo_url_hostname demo_config
              (demo_access_request_with None (Some "tok_h0"%string) None)
              (serve_all demo_url_hostname demo_config
                         [ToChallenge demo_challenge_request]
                         (fresh_world (demo_env ticking_clock) None))
  = (Return (RespError 401 invalid_access_token),
     after_query (serve_all demo_url_hostname demo_config
                            [ToChallenge demo_challenge_request]
                            (fresh_world (demo_env ticking_clock) None))).
Proof.
  destruct (token_kinds_do_not_mix demo_url_hostname demo_config
              (serve_all demo_url_hostname demo_config
                         [ToChallenge demo_challenge_request]
                         (fresh_world (demo_env ticking_clock) None))
              "pk_abc"%string "h0"%string) as [Hsubmit _].
  - apply (invariant_of_effects tokens_prefixed effect_keeps_tokens_prefixed).
    apply fresh_world_tokens_prefixed.
  - discriminate.
  - reflexivity.
  - apply (Hsubmit _ (JObj [("a"%string, JNum 1)])); reflexivity.
Defined.
